(** * BayBE: binary targets, discrete search spaces, serialization hooks

    A shallow embedding of the Python sources

      - [baybe/targets/binary.py]            ([BinaryTarget])
      - [baybe/examples/Constraints_Discrete/custom_constraints.py]
      - [benchmarks/result/result.py]        (UUID converter hooks)

    Python exceptions are modelled by an error monad, Python objects that
    are mutated in place by an explicit object store.  The kernel
    translation of [baybe/kernels/base.py] works by reflection on the
    gpytorch library and is not embedded.  The script
    [examples/Serialization/validate_config.py] only passes two documents
    to [BayBE.validate_config], a function of [baybe.core] that is not
    among the sources and that the design document does not describe; it
    is not embedded either. *)

From Stdlib Require Import ZArith QArith Qcanon Qcabs String Ascii List Lia.
From Stdlib Require Import DecimalString.
From stdpp Require Import base option list strings gmap.

Local Open Scope Z_scope.
Local Open Scope string_scope.
Local Open Scope list_scope.

(* ===================================================================== *)
(** * Python preliminaries *)
(* ===================================================================== *)

Module Py.

(** Exceptions raised by the modelled code.  The first group exists in
    the sources; the second group is the error taxonomy of the design
    document, used by the components that are specified there. *)
Inductive exception : Type :=
| UnknownTargetError (msg : string)
| AssertionError
| AttributeError (attr : string)
| KeyError (key : string)
| TypeError
| ValueError (msg : string)
| DomainError (msg : string)
| ConfigurationError (msg : string)
| NoMatchError (msg : string)
| ConstraintEvaluationError (msg : string)
| AmbiguousToleranceMatchError (msg : string).

(** [type(e).__name__] *)
Definition class_name (e : exception) : string :=
  match e with
  | UnknownTargetError _ => "UnknownTargetError"
  | AssertionError => "AssertionError"
  | AttributeError _ => "AttributeError"
  | KeyError _ => "KeyError"
  | TypeError => "TypeError"
  | ValueError _ => "ValueError"
  | DomainError _ => "DomainError"
  | ConfigurationError _ => "ConfigurationError"
  | NoMatchError _ => "NoMatchError"
  | ConstraintEvaluationError _ => "ConstraintEvaluationError"
  | AmbiguousToleranceMatchError _ => "AmbiguousToleranceMatchError"
  end.

(** [str(e)] *)
Definition message (e : exception) : string :=
  match e with
  | UnknownTargetError m | ValueError m | DomainError m
  | ConfigurationError m | NoMatchError m | ConstraintEvaluationError m
  | AmbiguousToleranceMatchError m => m
  | AttributeError a | KeyError a => a
  | AssertionError | TypeError => ""
  end.

(** The outcome of a Python call: a returned value or a raised
    exception. *)
Inductive result (A : Type) : Type :=
| Return (a : A)
| Raise (e : exception).
Arguments Return {A} a.
Arguments Raise {A} e.

Definition bind {A B} (r : result A) (k : A -> result B) : result B :=
  match r with
  | Return a => k a
  | Raise e => Raise e
  end.

Definition returns {A} (r : result A) : Prop := exists a, r = Return a.
Definition raises {A} (r : result A) : Prop := exists e, r = Raise e.

(** [[f(x) for x in xs]]: the first exception aborts the traversal. *)
Fixpoint traverse {A B} (f : A -> result B) (xs : list A) : result (list B) :=
  match xs with
  | [] => Return []
  | x :: xs' =>
      bind (f x) (fun y => bind (traverse f xs') (fun ys => Return (y :: ys)))
  end.

(** The Python values that occur as experimental target labels.  Floats
    are not part of this model. *)
Inductive object : Type :=
| PNone
| PBool (b : bool)
| PInt (z : Z)
| PStr (s : string).

(** [bool] is a subclass of [int]: [True == 1] and [False == 0]. *)
Definition as_int (o : object) : option Z :=
  match o with
  | PBool b => Some (if b then 1 else 0)
  | PInt z => Some z
  | _ => None
  end.

(** [a == b] *)
Definition py_eq (a b : object) : bool :=
  match a, b with
  | PNone, PNone => true
  | PStr s, PStr t => String.eqb s t
  | _, _ =>
      match as_int a, as_int b with
      | Some x, Some y => Z.eqb x y
      | _, _ => false
      end
  end.

(** [str(o)], as used by f-string interpolation. *)
Definition str (o : object) : string :=
  match o with
  | PNone => "None"
  | PBool true => "True"
  | PBool false => "False"
  | PInt z => NilZero.string_of_int (Z.to_int z)
  | PStr s => s
  end.

End Py.

Notation "'do' x <- c1 ; c2" := (Py.bind c1 (fun x => c2))
  (at level 10, x name, c1 at level 100, c2 at level 200).

(* ===================================================================== *)
(** * baybe/targets/binary.py *)
(* ===================================================================== *)

Module Binary.
Import Py.

(** [@define(frozen=True) class BinaryTarget(Target, SerialMixin)]: [name]
    comes from the base class; the two value fields carry no validator,
    so every pair of values constructs a target. *)
Record BinaryTarget : Type := {
  name : string;
  positive_value : object;
  negative_value : object
}.

(** Field defaults: [positive_value = 1], [negative_value = 0]. *)
Definition default (name : string) : BinaryTarget :=
  {| name := name; positive_value := PInt 1; negative_value := PInt 0 |}.

Definition unknown_target_message (t : BinaryTarget) (v : object) : string :=
  "The entered target '" ++ str v ++ "' is not in the target set of {"
    ++ str (positive_value t) ++ ", " ++ str (negative_value t) ++ "}".

(** [BinaryTarget.transform_to_binary] *)
Definition transform_to_binary (t : BinaryTarget) (experimental_representation : object)
  : result Z :=
  if py_eq experimental_representation (positive_value t) then Return 1
  else if py_eq experimental_representation (negative_value t) then Return 0
  else Raise (UnknownTargetError (unknown_target_message t experimental_representation)).

(** The declared domain of the target: the values that compare equal
    to one of the two declared labels. *)
Definition in_domain (t : BinaryTarget) (v : object) : Prop :=
  py_eq v (positive_value t) = true \/ py_eq v (negative_value t) = true.

(** ** Data frames and the object store

    A [DataFrame] is kept column-major: the ordered list of its columns,
    each with its label and its cells.  Frames are Python objects: a
    variable holds a reference, and the store maps references to the
    current contents. *)

Abbreviation Series := (list object).
Abbreviation DataFrame := (list (string * Series)).
Abbreviation ref := positive.
Abbreviation store := (gmap ref DataFrame).

(** [data.shape[1]] *)
Definition shape1 (data : DataFrame) : nat := length data.

(** [data.columns] *)
Definition columns (data : DataFrame) : list string := fst <$> data.

(** [data[label]] for a label that names one column. *)
Definition getitem (data : DataFrame) (label : string) : option Series :=
  snd <$> List.find (fun c => String.eqb (fst c) label) data.

(** [data[label] = cells] for an existing label: the column is replaced
    inside the frame. *)
Definition setitem (data : DataFrame) (label : string) (cells : Series) : DataFrame :=
  (fun c => if String.eqb (fst c) label then (fst c, cells) else c) <$> data.

(** [series.apply(f)] *)
Definition apply (f : object -> result Z) (cells : Series) : result Series :=
  do codes <- traverse f cells; Return (PInt <$> codes).

(** [BinaryTarget.transform].  The result pairs the outcome with the
    store after the call; [None] stands for a dangling reference, which
    Python never hands out. *)
Definition transform (t : BinaryTarget) (data : ref) (σ : store)
  : option (result ref * store) :=
  df ← σ !! data;
  if negb (Nat.eqb (shape1 df) 1) then Some (Raise AssertionError, σ)
  else
    label ← columns df !! 0%nat;
    cells ← getitem df label;
    match apply (transform_to_binary t) cells with
    | Raise e => Some (Raise e, σ)
    | Return encoded => Some (Return data, <[data := setitem df label encoded]> σ)
    end.

End Binary.

(* ===================================================================== *)
(** * Discrete search spaces *)
(* ===================================================================== *)

(** The example script [custom_constraints.py] supplies the parameters,
    the validator [custom_function] and the checks printed in its loop.
    The engine it drives ([baybe.parameters], [baybe.constraints],
    [baybe.searchspace], [baybe.core]) is not among the sources; those
    parts follow the design document and are marked as such.

    Numbers are exact rationals in canonical form ([Qc]): Python's ints
    and floats compare by numeric value, and none of the comparisons
    below is within rounding distance of a threshold. *)

Module Search.
Import Py.

Inductive value : Type :=
| VStr (s : string)
| VNum (q : Qc).

#[global] Instance value_eq_dec : EqDecision value.
Proof. solve_decision. Defined.

(** A row handed to a validator: a mapping from parameter name to value
    (the labelled [pd.Series] of the script). *)
Abbreviation Series := (gmap string value).

(** [ser.attr] *)
Definition getattr (ser : Series) (attr : string) : result value :=
  match ser !! attr with
  | Some v => Return v
  | None => Raise (AttributeError attr)
  end.

(** An integer literal. *)
Definition Z2Qc (z : Z) : Qc := Q2Qc (inject_Z z).

(** [a == "literal"]: never raises, a number differs from every string. *)
Definition eq_str (a : value) (lit : string) : bool :=
  match a with
  | VStr s => String.eqb s lit
  | VNum _ => false
  end.

(** [a > k] and [a < k] for a numeric literal [k]: ordering a string
    against a number is a [TypeError]. *)
Definition gt_num (a : value) (k : Qc) : result bool :=
  match a with
  | VNum x => Return (bool_decide (k < x)%Qc)
  | VStr _ => Raise TypeError
  end.

Definition lt_num (a : value) (k : Qc) : result bool :=
  match a with
  | VNum x => Return (bool_decide (x < k)%Qc)
  | VStr _ => Raise TypeError
  end.

(** [a and b]: the right operand is only evaluated when the left one is
    true. *)
Definition and_then (a b : result bool) : result bool :=
  do x <- a; if x then b else Return false.

(** ** [custom_constraints.py]: [custom_function] *)

Definition custom_function_C3 (ser : Series) : result bool :=
  do solvent <- getattr ser "Solvent";
  if eq_str solvent "C3" then
    do hit <- and_then (do t <- getattr ser "Temperature"; lt_num t (Z2Qc 150))
                       (do c <- getattr ser "Concentration"; gt_num c (Z2Qc 3));
    if hit then Return false else Return true
  else Return true.

Definition custom_function (ser : Series) : result bool :=
  do solvent <- getattr ser "Solvent";
  if eq_str solvent "water" then
    do hit1 <- and_then (do t <- getattr ser "Temperature"; gt_num t (Z2Qc 120))
                        (do c <- getattr ser "Concentration"; gt_num c (Z2Qc 5));
    if hit1 then Return false else
    do hit2 <- and_then (do t <- getattr ser "Temperature"; gt_num t (Z2Qc 180))
                        (do c <- getattr ser "Concentration"; gt_num c (Z2Qc 3));
    if hit2 then Return false else custom_function_C3 ser
  else custom_function_C3 ser.

(** The script's parameters.  RDKit descriptors are computed outside the
    repository, so the featurizer is an argument. *)
Definition dict_solvent : list (string * string) :=
  [("water", "O"); ("C1", "C"); ("C2", "CC"); ("C3", "CCC"); ("C4", "CCCC");
   ("C5", "CCCCC"); ("c6", "c1ccccc1"); ("C6", "CCCCCC")].

(** [np.linspace(start, stop, num)] for [num > 1]. *)
Definition linspace (start stop : Qc) (num : nat) : list Qc :=
  let step := ((stop - start) / Z2Qc (Z.of_nat (num - 1)))%Qc in
  (fun i : nat => (start + Z2Qc (Z.of_nat i) * step)%Qc) <$> seq 0 num.

(** ** Parameters *)

(** The encodings of a categorical parameter that the scripts select:
    integer codes and one-hot vectors. *)
Inductive Encoding : Type := INT | OHE.

(** Modelled from the spec: the discrete variants of the abstract
    [Parameter] of section 3, under the names of the classes the scripts
    import from [baybe.parameters]; each carries its name and its ordered
    domain.  ([Parameter] itself is a reserved word of the proof
    language, hence the longer name.) *)
Inductive DiscreteParameter : Type :=
| Categorical (name : string) (values : list string) (encoding : Encoding)
| NumericDiscrete (name : string) (values : list Qc) (tolerance : Qc)
| GenericSubstance (name : string) (data : list (string * string))
    (featurizer : string -> list Qc).

Definition param_name (p : DiscreteParameter) : string :=
  match p with
  | Categorical n _ _ | NumericDiscrete n _ _ | GenericSubstance n _ _ => n
  end.

(** The declared domain, in declaration order. *)
Definition param_values (p : DiscreteParameter) : list value :=
  match p with
  | Categorical _ vs _ => VStr <$> vs
  | NumericDiscrete _ vs _ => VNum <$> vs
  | GenericSubstance _ data _ => (fun kv => VStr (fst kv)) <$> data
  end.

(** Position of the first occurrence of [x]. *)
Fixpoint index_of {A} `{EqDecision A} (x : A) (l : list A) : option nat :=
  match l with
  | [] => None
  | y :: l' => if decide (x = y) then Some 0%nat else S <$> index_of x l'
  end.

Definition one_hot (s : string) (vs : list string) : list Qc :=
  (fun t => if decide (s = t) then Z2Qc 1 else Z2Qc 0) <$> vs.

Definition assoc {A B} `{EqDecision A} (k : A) (l : list (A * B)) : option B :=
  snd <$> List.find (fun kv => bool_decide (fst kv = k)) l.

Definition outside_domain (p : DiscreteParameter) : exception :=
  DomainError (param_name p).

(** Modelled from the spec: [encode(value) -> numeric_vector] of section
    4.1, the per-parameter encoding that [baybe.parameters] implements.
    It is total over the declared domain and fails with [DomainError]
    outside of it: an integer code or a one-hot vector for categories,
    the number itself for numeric levels, the descriptor vector for
    substances. *)
Definition encode (p : DiscreteParameter) (v : value) : result (list Qc) :=
  match p, v with
  | Categorical _ vs INT, VStr s =>
      match index_of s vs with
      | Some i => Return [Z2Qc (Z.of_nat i)]
      | None => Raise (outside_domain p)
      end
  | Categorical _ vs OHE, VStr s =>
      if decide (s ∈ vs) then Return (one_hot s vs) else Raise (outside_domain p)
  | NumericDiscrete _ vs _, VNum q =>
      if decide (q ∈ vs) then Return [q] else Raise (outside_domain p)
  | GenericSubstance _ data featurizer, VStr s =>
      match assoc s data with
      | Some smiles => Return (featurizer smiles)
      | None => Raise (outside_domain p)
      end
  | _, _ => Raise (outside_domain p)
  end.

(** Modelled from the spec: the cached encoding of section 4.1, computed
    once per declared domain value; encoding a cell is then a lookup in
    this table. *)
Definition encoding_table (p : DiscreteParameter) : result (list (value * list Qc)) :=
  traverse (fun v => do e <- encode p v; Return (v, e)) (param_values p).

Definition lookup_encoding (p : DiscreteParameter) (table : list (value * list Qc)) (v : value)
  : result (list Qc) :=
  match assoc v table with
  | Some e => Return e
  | None => Raise (outside_domain p)
  end.

(** ** Constraints *)

(** Modelled from the spec: the validator of a custom constraint
    (section 4.2; [baybe.constraints] is not among the sources): the
    user's function, [call], together with the list [reads] of parameter
    names it is registered as reading, which is what the binding check
    inspects.  [call] is an arbitrary function of the row, as
    [custom_function] is in the script: the engine cannot see into its
    body, and nothing ties [reads] to what the body looks up.  A body
    that looks up a name outside [reads] passes the binding check and
    raises when it is evaluated. *)
Record Validator : Type := {
  reads : list string;
  call : Series -> result bool
}.

Definition custom_validator : Validator :=
  {| reads := ["Solvent"; "Temperature"; "Concentration"];
     call := custom_function |}.

(** Modelled from the spec: the two capability shapes of section 4.2.  A
    custom constraint is a row predicate over its declared parameters; a
    table filter maps the provisional table, restricted to its declared
    parameters, to a keep-mask over its rows. *)
Inductive Constraint : Type :=
| CustomConstraint (parameters : list string) (validator : Validator)
| TableFilter (parameters : list string) (keep : list Series -> list bool).

Definition constraint_parameters (c : Constraint) : list string :=
  match c with
  | CustomConstraint ps _ | TableFilter ps _ => ps
  end.

(** The first name of [wanted] that [available] lacks. *)
Definition missing_name (wanted available : list string) : option string :=
  List.find (fun n => negb (bool_decide (n ∈ available))) wanted.

(** Modelled from the spec: [CustomConstraint.create] of
    [baybe.constraints], with the binding check of section 4.2: a
    validator registered as reading a name outside the declared list is
    refused with a configuration error. *)
Definition create (parameters : list string) (validator : Validator)
  : result Constraint :=
  match missing_name (reads validator) parameters with
  | Some n => Raise (ConfigurationError n)
  | None => Return (CustomConstraint parameters validator)
  end.

(** Modelled from the spec: the values handed to a validator are those of
    the declared parameters, bound by name (section 4.2). *)
Definition project (names : list string) (row : Series) : Series :=
  filter (fun kv => kv.1 ∈ names) row.

(** Modelled from the spec: the row predicate [is_valid] of section 4.2;
    a validator that raises surfaces as [ConstraintEvaluationError].
    Table filters have no per-row verdict. *)
Definition is_valid (c : Constraint) (row : Series) : result bool :=
  match c with
  | CustomConstraint ps v =>
      match call v (project ps row) with
      | Return b => Return b
      | Raise e => Raise (ConstraintEvaluationError (class_name e))
      end
  | TableFilter _ _ => Return true
  end.

(** ** The discrete subspace builder (section 4.3 of the design) *)

Abbreviation Row := (list value).

(** A row, or a prefix of one, as a mapping from column name to cell. *)
Definition row_series (names : list string) (row : Row) : Series :=
  list_to_map (zip names row).

(** Modelled from the spec: step 2(a) of section 4.3.  A row predicate
    can be evaluated as soon as every parameter it declares has a
    value. *)
Definition ready (assigned : list string) (c : Constraint) : bool :=
  match c with
  | CustomConstraint ps _ => forallb (fun n => bool_decide (n ∈ assigned)) ps
  | TableFilter _ _ => false
  end.

(** Whether a row, or a prefix of one, passes all of the given
    constraints; the first rejection settles it. *)
Fixpoint all_valid (cs : list Constraint) (ser : Series) : result bool :=
  match cs with
  | [] => Return true
  | c :: cs' => do ok <- is_valid c ser; if ok then all_valid cs' ser else Return false
  end.

(** The check made at a node of the product: the constraints that are
    ready for the parameters assigned so far. *)
Definition check (cs : list Constraint) (names : list string) (prefix : Row)
  : result bool :=
  all_valid (filter (fun c => ready (take (length prefix) names) c = true) cs)
            (row_series names prefix).

(** Modelled from the spec: steps 1 and 2(a), the depth-first product over
    the parameters in declaration order, cutting a branch as soon as a
    row predicate whose parameters are all assigned rejects it.  Rows
    come out in generation order. *)
Fixpoint product (cs : list Constraint) (names : list string) (prefix : Row)
    (rest : list DiscreteParameter) : result (list Row) :=
  do ok <- check cs names prefix;
  if ok then
    match rest with
    | [] => Return [prefix]
    | p :: rest' =>
        do parts <- traverse (fun v => product cs names (prefix ++ [v]) rest')
                             (param_values p);
        Return (concat parts)
    end
  else Return [].

(** Rows whose mask bit is set, in order. *)
Definition apply_mask (mask : list bool) (rows : list Row) : list Row :=
  fst <$> filter (fun rb => rb.2 = true) (zip rows mask).

(** Modelled from the spec: step 2(b), a table filter applied in one pass
    over the provisional table. *)
Definition apply_table_filter (names : list string) (rows : list Row) (c : Constraint)
  : list Row :=
  match c with
  | TableFilter ps keep =>
      apply_mask (keep ((fun r => project ps (row_series names r)) <$> rows)) rows
  | CustomConstraint _ _ => rows
  end.

(** Modelled from the spec: step 3, keeping the first occurrence of each
    full row. *)
Fixpoint dedup (seen rows : list Row) : list Row :=
  match rows with
  | [] => []
  | r :: rows' =>
      if decide (r ∈ seen) then dedup seen rows' else r :: dedup (r :: seen) rows'
  end.

(** [table.iloc[:, i]] *)
Definition column (i : nat) (rows : list Row) : result (list value) :=
  traverse (fun r => match r !! i with
                     | Some v => Return v
                     | None => Raise (KeyError "column")
                     end) rows.

(** Modelled from the spec: sections 4.1 and 4.3, step 5.  The encoded
    block of one parameter, one vector per row, read from the
    parameter's cached table. *)
Definition encode_column (p : DiscreteParameter) (cells : list value)
  : result (list (list Qc)) :=
  do table <- encoding_table p; traverse (lookup_encoding p table) cells.

Fixpoint encode_columns (i : nat) (ps : list DiscreteParameter) (rows : list Row)
  : result (list (list (list Qc))) :=
  match ps with
  | [] => Return []
  | p :: ps' =>
      do cells <- column i rows;
      do block <- encode_column p cells;
      do blocks <- encode_columns (S i) ps' rows;
      Return (block :: blocks)
  end.

(** Blocks placed side by side, in the order given. *)
Definition hconcat (n : nat) (blocks : list (list (list Qc))) : list (list Qc) :=
  foldl (zip_with app) (replicate n []) blocks.

(** Modelled from the spec: step 5, the computational representation as
    the per-parameter encoded columns concatenated in declaration
    order. *)
Definition computational (ps : list DiscreteParameter) (rows : list Row)
  : result (list (list Qc)) :=
  do blocks <- encode_columns 0 ps rows; Return (hconcat (length rows) blocks).

(** Encoding one experimental row on its own. *)
Fixpoint encode_row (ps : list DiscreteParameter) (row : Row) : result (list Qc) :=
  match ps, row with
  | [], [] => Return []
  | p :: ps', v :: row' =>
      do e <- encode p v; do es <- encode_row ps' row'; Return (e ++ es)
  | _, _ => Raise (KeyError "column")
  end.

Record Subspace : Type := {
  parameters : list DiscreteParameter;
  constraints : list Constraint;
  exp_rep : list Row;
  comp_rep : list (list Qc)
}.

(** Modelled from the spec: the eager configuration checks of sections 3,
    4.2 and 7.  Parameter names are unique, every constraint names
    parameters of the space only, and a validator is registered as
    reading declared names only. *)
Fixpoint validate_constraints (names : list string) (cs : list Constraint)
  : result unit :=
  match cs with
  | [] => Return tt
  | c :: cs' =>
      match missing_name (constraint_parameters c) names with
      | Some n => Raise (ConfigurationError n)
      | None =>
          match c with
          | CustomConstraint ps v =>
              match missing_name (reads v) ps with
              | Some n => Raise (ConfigurationError n)
              | None => validate_constraints names cs'
              end
          | TableFilter _ _ => validate_constraints names cs'
          end
      end
  end.

Definition validate (ps : list DiscreteParameter) (cs : list Constraint) : result unit :=
  let names := param_name <$> ps in
  if bool_decide (NoDup names) then validate_constraints names cs
  else Raise (ConfigurationError "duplicate parameter name").

(** Modelled from the spec: the builder of section 4.3, which stands for
    the discrete part of [SearchSpace.create]. *)
Definition build (ps : list DiscreteParameter) (cs : list Constraint)
    (allow_duplicates : bool) : result Subspace :=
  let names := param_name <$> ps in
  do _ <- validate ps cs;
  do generated <- product cs names [] ps;
  let filtered := foldl (apply_table_filter names) generated cs in
  let rows := if allow_duplicates then filtered else dedup [] filtered in
  do comp <- computational ps rows;
  Return {| parameters := ps; constraints := cs; exp_rep := rows; comp_rep := comp |}.

(** ** Search space and campaign state *)

(** Modelled from the spec: section 4.4.  The tables are fixed once built;
    what has been measured or recommended is kept beside them, as rows
    identified by their content. *)
Record SearchSpace : Type := {
  discrete : Subspace;
  measured : list Row;
  recommended : list Row
}.

(** Modelled from the spec: [SearchSpace.create] for discrete parameters,
    duplicates disallowed as by default. *)
Definition create_searchspace (ps : list DiscreteParameter) (cs : list Constraint)
  : result SearchSpace :=
  do sub <- build ps cs false;
  Return {| discrete := sub; measured := []; recommended := [] |}.

(** Modelled from the spec: [mark_measured] of section 4.4.  Adding rows
    to a marked set; a row already present is not added. *)
Definition mark (marked rows : list Row) : list Row :=
  foldl (fun acc r => if decide (r ∈ acc) then acc else acc ++ [r]) marked rows.

(** Modelled from the spec: the effect of [baybe_obj.recommend] on the
    search space (sections 3 and 4.4).  The batch itself is chosen by
    the recommender, an external collaborator, and is an argument. *)
Definition recommend (batch : list Row) (s : SearchSpace) : SearchSpace :=
  {| discrete := discrete s; measured := measured s;
     recommended := mark (recommended s) batch |}.

(** Modelled from the spec: the effect of [baybe_obj.add_measurements] on
    the search space (sections 3 and 4.4). *)
Definition add_measurements (batch : list Row) (s : SearchSpace) : SearchSpace :=
  {| discrete := discrete s; measured := mark (measured s) batch;
     recommended := recommended s |}.

(** The body of the script's loop, for each batch in turn. *)
Definition iterate (batches : list (list Row)) (s : SearchSpace) : SearchSpace :=
  foldl (fun s batch => add_measurements batch (recommend batch s)) s batches.

(** ** The script's space and its printed checks *)

Definition solvent (rdkit : string -> list Qc) : DiscreteParameter :=
  GenericSubstance "Solvent" dict_solvent rdkit.
Definition speed : DiscreteParameter :=
  Categorical "Speed" ["very slow"; "slow"; "normal"; "fast"; "very fast"] INT.
Definition temperature : DiscreteParameter :=
  NumericDiscrete "Temperature" (linspace (Z2Qc 100) (Z2Qc 200) 10) (Q2Qc (5 # 10)).
Definition concentration : DiscreteParameter :=
  NumericDiscrete "Concentration" (Z2Qc <$> [1; 2; 5; 10]%Z) (Q2Qc (4 # 10)).

Definition script_parameters (rdkit : string -> list Qc) : list DiscreteParameter :=
  [solvent rdkit; speed; temperature; concentration].

(** The constraint that [CustomConstraint.create] returns for the script's
    configuration dictionary. *)
Definition script_custom : Constraint :=
  CustomConstraint ["Concentration"; "Solvent"; "Temperature"] custom_validator.

Definition script_constraint : result Constraint :=
  create ["Concentration"; "Solvent"; "Temperature"] custom_validator.

Definition script_searchspace (rdkit : string -> list Qc) : result SearchSpace :=
  do constraint <- script_constraint;
  create_searchspace (script_parameters rdkit) [constraint].

(** [exp_rep[label]] *)
Definition getitem (s : Subspace) (label : string) : result (list value) :=
  match index_of label (param_name <$> parameters s) with
  | Some i => column i (exp_rep s)
  | None => Raise (KeyError label)
  end.

(** [series.apply(f)] *)
Definition apply (f : value -> result bool) (cells : list value) : result (list bool) :=
  traverse f cells.

(** [(a & b & c).sum()] *)
Definition and_sum (a b c : list bool) : nat :=
  length (filter (fun x => x = true) (zip_with andb (zip_with andb a b) c)).

(** The three numbers printed in the loop: for instance
    [(exp_rep["Concentration"].apply(lambda x: x > 5)
      & exp_rep["Temperature"].apply(lambda x: x > 120)
      & exp_rep["Solvent"].eq("water")).sum()]. *)
Definition count_entries (conc_gt : Qc) (temp : value -> result bool)
    (solvent_name : string) (s : Subspace) : result nat :=
  do conc <- getitem s "Concentration";
  do m1 <- apply (fun x => gt_num x conc_gt) conc;
  do temps <- getitem s "Temperature";
  do m2 <- apply temp temps;
  do solvents <- getitem s "Solvent";
  Return (and_sum m1 m2 ((fun x => eq_str x solvent_name) <$> solvents)).

Definition count_water_120_5 : Subspace -> result nat :=
  count_entries (Z2Qc 5) (fun x => gt_num x (Z2Qc 120)) "water".
Definition count_water_180_3 : Subspace -> result nat :=
  count_entries (Z2Qc 3) (fun x => gt_num x (Z2Qc 180)) "water".
Definition count_C3_150_3 : Subspace -> result nat :=
  count_entries (Z2Qc 3) (fun x => lt_num x (Z2Qc 150)) "C3".

(** ** Matching measured values to discrete levels *)

Definition within_tolerance (tolerance x level : Qc) : Prop :=
  (Qcabs (x - level) <= tolerance)%Qc.

#[global] Instance within_tolerance_dec (tolerance x level : Qc) :
  Decision (within_tolerance tolerance x level).
Proof. unfold within_tolerance. apply _. Defined.



(** The three combinations named in the script's printed checks. *)
Definition forbidden (s : string) (t c : Qc) : bool :=
  (String.eqb s "water" && bool_decide (Z2Qc 120 < t)%Qc && bool_decide (Z2Qc 5 < c)%Qc)
  || (String.eqb s "water" && bool_decide (Z2Qc 180 < t)%Qc && bool_decide (Z2Qc 3 < c)%Qc)
  || (String.eqb s "C3" && bool_decide (t < Z2Qc 150)%Qc && bool_decide (Z2Qc 3 < c)%Qc).

(** The column labels of the script's table. *)
Definition script_names : list string :=
  ["Solvent"; "Speed"; "Temperature"; "Concentration"].

(** A row of the script's table, from its four cells. *)
Definition typed_row (r : string * string * Qc * Qc) : Row :=
  let '(s, sp, t, c) := r in [VStr s; VStr sp; VNum t; VNum c].

(** Whether a row matches one of the printed masks: concentration above
    [conc_gt], temperature test [temp], solvent [solvent_name]. *)
Definition combination (conc_gt : Qc) (temp : Qc -> bool) (solvent_name : string)
    (r : string * string * Qc * Qc) : bool :=
  let '(s, _, t, c) := r in
  bool_decide (conc_gt < c)%Qc && temp t && String.eqb s solvent_name.

End Search.

(* ===================================================================== *)
(** * benchmarks/result/result.py *)
(* ===================================================================== *)

(** The module registers two converter hooks for [uuid.UUID]:
    [lambda x: str(x)] to unstructure and [lambda x, _: UUID(x)] to
    structure.  [str] and the constructor belong to Python's standard
    library; they are embedded here after CPython's [uuid.py]. *)

Module Uuid.
Import Py.
Local Open Scope Z_scope.

(** A [UUID] object holds a 128-bit integer, and [==] on UUIDs compares
    these integers. *)
Record UUID : Type := { int : Z }.

(** The constructor only lets integers of this range through. *)
Definition in_range (n : Z) : Prop := 0 <= n < 2 ^ 128.

Definition chars (s : string) : list ascii := list_ascii_of_string s.

Definition is_digit (d : Z) : Prop := 0 <= d < 16.

(** The characters of a lowercase hexadecimal numeral. *)
Definition lower_hex : list ascii := chars "0123456789abcdef".

(** The characters of a canonical UUID string are lowercase hexadecimal
    digits and hyphens. *)
Definition plain (c : ascii) : Prop := c ∈ "-"%char :: lower_hex.

(** One lowercase hexadecimal digit. *)
Definition hex_digit (d : Z) : ascii :=
  ascii_of_nat (Z.to_nat (if d <? 10 then 48 + d else 87 + d)).

(** The value of a hexadecimal digit of either case. *)
Definition hex_value (c : ascii) : option Z :=
  let n := Z.of_nat (nat_of_ascii c) in
  if (48 <=? n) && (n <=? 57) then Some (n - 48)
  else if (97 <=? n) && (n <=? 102) then Some (n - 87)
  else if (65 <=? n) && (n <=? 70) then Some (n - 55)
  else None.

(** The hexadecimal digits of [n >= 0], least significant first. *)
Fixpoint hex_digits (fuel : nat) (n : Z) : list Z :=
  match fuel with
  | O => []
  | S fuel' => if n <? 16 then [n] else (n mod 16) :: hex_digits fuel' (n / 16)
  end.

(** ['%x' % n] for [n >= 0]. *)
Definition format_x (n : Z) : list ascii :=
  hex_digit <$> rev (hex_digits (S (Z.to_nat (Z.log2 n))) n).

(** ['%032x' % n]: padded with zeros on the left to 32 characters. *)
Definition format_032x (n : Z) : list ascii :=
  let digits := format_x n in
  replicate (32 - length digits) "0"%char ++ digits.

(** [s[i:j]] *)
Definition slice (i j : nat) (s : list ascii) : list ascii := drop i (take j s).

(** [UUID.__str__]:
    ['%s-%s-%s-%s-%s' % (hex[:8], hex[8:12], hex[12:16], hex[16:20], hex[20:])] *)
Definition hyphenate (hex : list ascii) : list ascii :=
  take 8 hex ++ "-"%char :: slice 8 12 hex ++ "-"%char :: slice 12 16 hex
    ++ "-"%char :: slice 16 20 hex ++ "-"%char :: drop 20 hex.

Definition str (u : UUID) : string :=
  string_of_list_ascii (hyphenate (format_032x (int u))).

Fixpoint starts_with (prefix s : list ascii) : bool :=
  match prefix, s with
  | [], _ => true
  | p :: prefix', c :: s' => bool_decide (p = c) && starts_with prefix' s'
  | _ :: _, [] => false
  end.

(** [s.replace(old, '')] for a non-empty [old]: occurrences are removed
    from left to right; [skip] counts the characters of an occurrence
    still to be dropped. *)
Fixpoint remove_all (old : list ascii) (skip : nat) (s : list ascii) : list ascii :=
  match s with
  | [] => []
  | c :: s' =>
      match skip with
      | S k => remove_all old k s'
      | O => if starts_with old s then remove_all old (length old - 1) s'
             else c :: remove_all old 0 s'
      end
  end.

Definition remove (old : string) (s : list ascii) : list ascii :=
  remove_all (chars old) 0 s.

(** [s.lstrip(set)] and [s.strip(set)] *)
Fixpoint lstrip (set s : list ascii) : list ascii :=
  match s with
  | [] => []
  | c :: s' => if bool_decide (c ∈ set) then lstrip set s' else s
  end.

Definition strip (set : string) (s : list ascii) : list ascii :=
  rev (lstrip (chars set) (rev (lstrip (chars set) s))).

(** [int(s, 16)] on a string of hexadecimal digits.  CPython also accepts
    a sign, a [0x] prefix, single underscores between digits and
    surrounding white space; such strings are answered with [ValueError]
    here, and [str] never produces one. *)
Definition int_16_step (acc : option Z) (c : ascii) : option Z :=
  a ← acc; d ← hex_value c; Some (16 * a + d).

Definition int_16 (s : list ascii) : result Z :=
  match s with
  | [] => Raise (ValueError "invalid literal for int() with base 16")
  | _ :: _ =>
      match foldl int_16_step (Some 0) s with
      | Some n => Return n
      | None => Raise (ValueError "invalid literal for int() with base 16")
      end
  end.

(** [UUID(hex)] *)
Definition UUID_from_hex (hex : string) : result UUID :=
  let hex := remove "uuid:" (remove "urn:" (chars hex)) in
  let hex := filter (fun c => c <> "-"%char) (strip "{}" hex) in
  if negb (Nat.eqb (length hex) 32) then
    Raise (ValueError "badly formed hexadecimal UUID string")
  else
    do n <- int_16 hex;
    if (0 <=? n) && (n <? 2 ^ 128) then Return {| int := n |}
    else Raise (ValueError "int is out of range (need a 128-bit value)").

(** What [UUID(hex)] hands to [int(..., 16)]: its argument without the
    URN prefix, the braces and the hyphens. *)
Definition cleaned (hex : string) : list ascii :=
  filter (fun c => c <> "-"%char)
         (strip "{}" (remove "uuid:" (remove "urn:" (chars hex)))).

(** [converter.register_unstructure_hook(UUID, lambda x: str(x))] *)
Definition unstructure_hook (x : UUID) : string := str x.

(** [converter.register_structure_hook(UUID, lambda x, _: UUID(x))]; the
    second argument is the target type, which the hook ignores. *)
Definition structure_hook (x : string) (_ : unit) : result UUID := UUID_from_hex x.

End Uuid.

(* ##################################################################### *)
(** * Verified properties *)
(* ##################################################################### *)

(** Closed decidable facts about concrete numbers are settled by
    evaluating their decision procedure. *)
Ltac decide_by_computation :=
  match goal with
  | |- ?P => apply (bool_decide_unpack P); vm_compute; exact I
  end.

(* ===================================================================== *)
(** ** The error monad *)
(* ===================================================================== *)

Section ResultFacts.
Import Py.

Lemma bind_Return {X Y : Type} (r : result X) (k : X -> result Y) (y : Y) :
  bind r k = Return y -> exists x, r = Return x /\ k x = Return y.
Proof. destruct r as [x|e]; simpl; [eauto|discriminate]. Qed.

Context {A B : Type}.

Lemma traverse_Forall2 (f : A -> result B) (xs : list A) (ys : list B) :
  traverse f xs = Return ys <-> Forall2 (fun x y => f x = Return y) xs ys.
Proof.
  revert ys. induction xs as [|x xs IH]; intros ys; simpl.
  - split; [intros [= <-]; constructor|intros H; inversion H; reflexivity].
  - split.
    + intros H. apply bind_Return in H as (y & Hy & H).
      destruct (traverse f xs) as [ys'|e] eqn:Hxs; simpl in H; [|discriminate].
      injection H as <-. constructor; [assumption|]. apply IH. reflexivity.
    + intros H. inversion H as [|? y ? ys' Hy Hys]; subst.
      rewrite Hy. simpl. apply IH in Hys. rewrite Hys. reflexivity.
Qed.

Lemma traverse_length (f : A -> result B) (xs : list A) (ys : list B) :
  traverse f xs = Return ys -> length ys = length xs.
Proof.
  intros H. apply traverse_Forall2 in H. symmetry. eapply Forall2_length, H.
Qed.

Lemma traverse_ext (f g : A -> result B) (xs : list A) :
  Forall (fun x => f x = g x) xs -> traverse f xs = traverse g xs.
Proof.
  induction 1 as [|x xs Hx _ IH]; simpl; [reflexivity|]. rewrite Hx, IH. reflexivity.
Qed.

Lemma traverse_returns (f : A -> result B) (xs : list A) :
  Forall (fun x => returns (f x)) xs -> returns (traverse f xs).
Proof.
  induction 1 as [|x xs [y Hy] _ [ys Hys]]; simpl; [eexists; reflexivity|].
  rewrite Hy, Hys. eexists; reflexivity.
Qed.

Lemma traverse_Raise (f : A -> result B) (xs : list A) (x : A) :
  x ∈ xs -> raises (f x) -> raises (traverse f xs).
Proof.
  intros Hin [e He]. destruct (traverse f xs) as [ys|e'] eqn:H; [|eexists; reflexivity].
  apply traverse_Forall2 in H.
  destruct (proj1 (list_elem_of_lookup _ _) Hin) as [i Hi].
  destruct (Forall2_lookup_l _ _ _ _ _ H Hi) as (y & _ & Hy). congruence.
Qed.

End ResultFacts.

(* ===================================================================== *)
(** ** Python equality on target labels *)
(* ===================================================================== *)

Section PyEq.
Import Py.

Lemma py_eq_refl (a : object) : py_eq a a = true.
Proof.
  destruct a as [|b|z|s]; simpl; auto using Z.eqb_refl, String.eqb_refl.
Qed.

Lemma py_eq_sym (a b : object) : py_eq a b = py_eq b a.
Proof.
  destruct a, b; simpl; auto using Z.eqb_sym, String.eqb_sym.
Qed.

Lemma py_eq_as_int (a b : object) :
  py_eq a b = true ->
  (a = PNone /\ b = PNone) \/ (exists s, a = PStr s /\ b = PStr s) \/
  (exists z, as_int a = Some z /\ as_int b = Some z).
Proof.
  destruct a as [|x|x|s], b as [|y|y|t]; simpl; try discriminate; intros H;
    try (apply Z.eqb_eq in H; right; right; eexists; split; [reflexivity|congruence]).
  - left; auto.
  - apply String.eqb_eq in H; subst. right; left; eauto.
Qed.

Lemma py_eq_trans (a b c : object) :
  py_eq a b = true -> py_eq b c = true -> py_eq a c = true.
Proof.
  intros Hab Hbc.
  destruct (py_eq_as_int _ _ Hab) as [[-> ->]|[(s & -> & ->)|(z & Ha & Hb)]]; auto.
  destruct (py_eq_as_int _ _ Hbc) as [[-> _]|[(s & -> & _)|(z' & Hb' & Hc)]];
    try discriminate.
  assert (z' = z) by congruence; subst z'.
  destruct a, c; simpl in *; try discriminate;
    inversion Ha; inversion Hc; subst; apply Z.eqb_eq; congruence.
Qed.

End PyEq.

(* ===================================================================== *)
(** ** [BinaryTarget.transform_to_binary] *)
(* ===================================================================== *)

Section BinaryFacts.
Import Py Binary.

Lemma transform_to_binary_positive (t : BinaryTarget) (v : object) :
  py_eq v (positive_value t) = true -> transform_to_binary t v = Return 1.
Proof. unfold transform_to_binary. intros ->. reflexivity. Qed.

Lemma transform_to_binary_negative (t : BinaryTarget) (v : object) :
  py_eq v (positive_value t) = false ->
  py_eq v (negative_value t) = true ->
  transform_to_binary t v = Return 0.
Proof. unfold transform_to_binary. intros -> ->. reflexivity. Qed.

Lemma transform_to_binary_outside (t : BinaryTarget) (v : object) :
  ~ in_domain t v ->
  transform_to_binary t v = Raise (UnknownTargetError (unknown_target_message t v)).
Proof.
  unfold in_domain, transform_to_binary. intros H.
  destruct (py_eq v (positive_value t)); [tauto|].
  destruct (py_eq v (negative_value t)); [tauto|reflexivity].
Qed.

Lemma transform_to_binary_code (t : BinaryTarget) (v : object) (c : Z) :
  transform_to_binary t v = Return c -> c = 1 \/ c = 0.
Proof.
  unfold transform_to_binary.
  destruct (py_eq v (positive_value t)); [intros [= <-]; auto|].
  destruct (py_eq v (negative_value t)); [intros [= <-]; auto|discriminate].
Qed.

Lemma transform_to_binary_returns_iff (t : BinaryTarget) (v : object) :
  returns (transform_to_binary t v) <-> in_domain t v.
Proof.
  unfold returns, in_domain, transform_to_binary.
  destruct (py_eq v (positive_value t)); [split; eauto|].
  destruct (py_eq v (negative_value t)); [split; eauto|].
  split; [intros [c Hc]; discriminate|intros [H|H]; discriminate].
Qed.

(** C3 (counterexample): with both declared labels equal, the negative
    label is encoded as 1, not 0; and the exception raised outside the
    domain is an [UnknownTargetError], not a [DomainError]. *)
Lemma transform_to_binary_not_as_specified :
  let t := {| name := "t"; positive_value := PInt 1; negative_value := PInt 1 |} in
  (py_eq (PInt 1) (negative_value t) = true /\
   transform_to_binary t (PInt 1) = Return 1 /\
   transform_to_binary t (PInt 1) <> Return 0) /\
  (~ in_domain (default "t") (PInt 2) /\
   exists e, transform_to_binary (default "t") (PInt 2) = Raise e /\
             class_name e = "UnknownTargetError" /\ class_name e <> "DomainError").
Proof.
  simpl. split; [repeat split; discriminate|]. split.
  - intros [H|H]; discriminate.
  - eexists. split; [reflexivity|]. split; [reflexivity|discriminate].
Qed.

(** C3 (amended): [transform_to_binary] is a total function of the target
    and the value.  It returns 1 for a value equal to the positive label,
    0 for a value equal to the negative label and not to the positive
    one, so that every value of the declared domain gets a code in
    {0, 1}; every value outside the domain raises [UnknownTargetError],
    whose message quotes the value and both declared labels. *)
Theorem transform_to_binary_total (t : BinaryTarget) (v : object) :
  (py_eq v (positive_value t) = true -> transform_to_binary t v = Return 1) /\
  (py_eq v (positive_value t) = false -> py_eq v (negative_value t) = true ->
     transform_to_binary t v = Return 0) /\
  (in_domain t v ->
     transform_to_binary t v = Return 1 \/ transform_to_binary t v = Return 0) /\
  (~ in_domain t v ->
     exists e, transform_to_binary t v = Raise e /\
       class_name e = "UnknownTargetError" /\
       message e =
         ("The entered target '" ++ str v ++ "' is not in the target set of {"
            ++ str (positive_value t) ++ ", " ++ str (negative_value t) ++ "}")%string).
Proof.
  split; [apply transform_to_binary_positive|].
  split; [apply transform_to_binary_negative|].
  split.
  - intros H. apply transform_to_binary_returns_iff in H as [c Hc].
    rewrite Hc. destruct (transform_to_binary_code _ _ _ Hc); subst; auto.
  - intros H. eexists. split; [apply transform_to_binary_outside, H|].
    split; reflexivity.
Qed.

Lemma transform_to_binary_total_witness :
  transform_to_binary (default "yield") (PBool true) = Return 1 /\
  transform_to_binary (default "yield") (PInt 0) = Return 0 /\
  exists e, transform_to_binary (default "yield") (PStr "high") = Raise e /\
    class_name e = "UnknownTargetError" /\
    message e = "The entered target 'high' is not in the target set of {1, 0}".
Proof.
  destruct (transform_to_binary_total (default "yield") (PBool true)) as (H1 & _).
  destruct (transform_to_binary_total (default "yield") (PInt 0)) as (_ & H2 & _).
  destruct (transform_to_binary_total (default "yield") (PStr "high")) as (_ & _ & _ & H3).
  split; [apply H1; reflexivity|].
  split; [apply H2; reflexivity|].
  apply H3. intros [H|H]; discriminate.
Defined.

(** C8: the positive label is tested first.  A value equal to the positive
    label is encoded as 1 whatever the negative label is; any two labels,
    equal ones included, construct a target; and when the two labels are
    equal, no value is ever encoded as 0 while both labels are encoded
    as 1. *)
Theorem transform_to_binary_positive_first :
  (forall (t : BinaryTarget) (v : object),
     py_eq v (positive_value t) = true -> transform_to_binary t v = Return 1) /\
  (forall (n : string) (p q : object),
     exists t, name t = n /\ positive_value t = p /\ negative_value t = q) /\
  (forall (t : BinaryTarget),
     py_eq (negative_value t) (positive_value t) = true ->
     (forall v, transform_to_binary t v <> Return 0) /\
     transform_to_binary t (positive_value t) = Return 1 /\
     transform_to_binary t (negative_value t) = Return 1).
Proof.
  split; [apply transform_to_binary_positive|].
  split; [intros n p q; exists {| name := n; positive_value := p; negative_value := q |}; auto|].
  intros t Heq. repeat split.
  - intros v. unfold transform_to_binary.
    destruct (py_eq v (positive_value t)) eqn:Hp; [discriminate|].
    destruct (py_eq v (negative_value t)) eqn:Hn; [|discriminate].
    rewrite (py_eq_trans _ _ _ Hn Heq) in Hp. discriminate.
  - apply transform_to_binary_positive, py_eq_refl.
  - apply transform_to_binary_positive, Heq.
Qed.

Lemma transform_to_binary_positive_first_witness :
  let t := {| name := "hit"; positive_value := PStr "yes"; negative_value := PStr "yes" |} in
  transform_to_binary t (PStr "yes") = Return 1 /\
  (forall v, transform_to_binary t v <> Return 0) /\
  transform_to_binary t (negative_value t) = Return 1.
Proof.
  intros t.
  destruct transform_to_binary_positive_first as (H1 & _ & H3).
  destruct (H3 t eq_refl) as (Hz & _ & Hn).
  split; [apply H1; reflexivity|]. split; assumption.
Defined.

End BinaryFacts.

(* ===================================================================== *)
(** ** [BinaryTarget.transform] *)
(* ===================================================================== *)

Section TransformFacts.
Import Py Binary.

Lemma traverse_codes (t : BinaryTarget) (cells : Series) (codes : list Z) :
  traverse (transform_to_binary t) cells = Return codes ->
  length codes = length cells /\ Forall (fun c => c = 1 \/ c = 0) codes.
Proof.
  revert codes. induction cells as [|v cells IH]; simpl; intros codes.
  - intros [= <-]. split; [reflexivity|constructor].
  - destruct (transform_to_binary t v) as [c|e] eqn:Hv; simpl; [|discriminate].
    destruct (traverse (transform_to_binary t) cells) as [cs|e]; simpl; [|discriminate].
    intros [= <-]. destruct (IH cs eq_refl) as [Hlen Hall].
    split; [simpl; congruence|].
    constructor; [eapply transform_to_binary_code; eassumption|assumption].
Qed.

Lemma transform_single_column (t : BinaryTarget) (data : ref) (σ : store)
    (label : string) (cells : Series) :
  σ !! data = Some [(label, cells)] ->
  transform t data σ =
    match traverse (transform_to_binary t) cells with
    | Return codes => Some (Return data, <[data := [(label, PInt <$> codes)]]> σ)
    | Raise e => Some (Raise e, σ)
    end.
Proof.
  intros Hdf. unfold transform. rewrite Hdf. simpl.
  unfold getitem, apply, setitem. simpl. rewrite String.eqb_refl. simpl.
  destruct (traverse (transform_to_binary t) cells) as [codes|e]; reflexivity.
Qed.

(** C9: [transform] works on the frame object it is given.  A frame whose
    column count is not 1 fails the assertion and is left alone.  For a
    one-column frame whose cells all encode, the store afterwards holds,
    at the very reference that was passed in, the frame with its column
    overwritten by the codes, and that same reference is returned; if a
    cell does not encode, the exception escapes before the assignment.
    The call is therefore observable in the store: the store is the
    same afterwards only if the column already held its own codes. *)
Theorem transform_in_place (t : BinaryTarget) (data : ref) (σ : store) (df : DataFrame) :
  σ !! data = Some df ->
  (shape1 df <> 1%nat -> transform t data σ = Some (Raise AssertionError, σ)) /\
  (forall label cells, df = [(label, cells)] ->
     (forall codes, traverse (transform_to_binary t) cells = Return codes ->
        transform t data σ =
          Some (Return data, <[data := [(label, PInt <$> codes)]]> σ) /\
        length codes = length cells /\
        Forall (fun c => c = 1 \/ c = 0) codes) /\
     (forall e, traverse (transform_to_binary t) cells = Raise e ->
        transform t data σ = Some (Raise e, σ))) /\
  (forall r σ', transform t data σ = Some (Return r, σ') ->
     r = data /\ shape1 df = 1%nat /\
     (forall other, other <> data -> σ' !! other = σ !! other) /\
     (σ' = σ -> forall label cells, df = [(label, cells)] ->
        exists codes, traverse (transform_to_binary t) cells = Return codes /\
                      cells = PInt <$> codes)).
Proof.
  intros Hdf. split; [|split].
  - intros Hshape. unfold transform. rewrite Hdf. simpl.
    destruct (Nat.eqb_spec (shape1 df) 1); [contradiction|reflexivity].
  - intros label cells ->. split.
    + intros codes Hc. rewrite (transform_single_column _ _ _ _ _ Hdf), Hc.
      split; [reflexivity|]. eapply traverse_codes; eassumption.
    + intros e He. rewrite (transform_single_column _ _ _ _ _ Hdf), He. reflexivity.
  - intros r σ'. destruct df as [|[label cells] [|c2 df']].
    + unfold transform. rewrite Hdf. simpl. discriminate.
    + rewrite (transform_single_column _ _ _ _ _ Hdf).
      destruct (traverse (transform_to_binary t) cells) as [codes|e] eqn:Hcodes;
        [|discriminate].
      intros [= <- <-]. repeat split; auto.
      * intros other Hne. rewrite lookup_insert_ne; auto.
      * intros Hsame label' cells' [= <- <-]. exists codes. split; [exact Hcodes|].
        apply (f_equal (fun m : store => m !! data)) in Hsame.
        rewrite lookup_insert_eq, Hdf in Hsame. congruence.
    + unfold transform. rewrite Hdf. simpl. discriminate.
Qed.

(** A run of [transform]: the caller's frame has changed after the call,
    and a two-column frame is rejected. *)
Lemma transform_in_place_witness :
  let t := default "hit" in
  let before : DataFrame := [("hit", [PInt 1; PInt 0; PBool true])] in
  let after : DataFrame := [("hit", [PInt 1; PInt 0; PInt 1])] in
  let σ : store := {[ 7%positive := before ]} in
  transform t 7%positive σ = Some (Return 7%positive, <[7%positive := after]> σ) /\
  (<[7%positive := after]> σ) !! 7%positive <> σ !! 7%positive /\
  transform t 3%positive {[ 3%positive := [("a", [PInt 1]); ("b", [PInt 0])] ]}
    = Some (Raise AssertionError, {[ 3%positive := [("a", [PInt 1]); ("b", [PInt 0])] ]}).
Proof.
  intros t before after σ.
  assert (Hdf : σ !! 7%positive = Some before) by (apply lookup_singleton_eq).
  destruct (transform_in_place t 7%positive σ before Hdf) as (_ & H1 & _).
  destruct (H1 "hit" [PInt 1; PInt 0; PBool true] eq_refl) as (H2 & _).
  destruct (H2 [1; 0; 1] eq_refl) as (H3 & _).
  split; [exact H3|]. split.
  - rewrite lookup_insert_eq, Hdf. discriminate.
  - destruct (transform_in_place t 3%positive
                {[ 3%positive := [("a", [PInt 1]); ("b", [PInt 0])] ]}
                [("a", [PInt 1]); ("b", [PInt 0])]) as (H4 & _).
    + apply lookup_singleton_eq.
    + apply H4. simpl. discriminate.
Defined.

End TransformFacts.


(* ===================================================================== *)
(** ** The subspace builder *)
(* ===================================================================== *)

Section BuilderFacts.
Import Py Search.

Lemma Forall_concat {A} (P : A -> Prop) (ls : list (list A)) :
  Forall (Forall P) ls -> Forall P (concat ls).
Proof.
  induction 1 as [|l ls Hl _ IH]; simpl; [constructor|].
  apply Forall_app. split; assumption.
Qed.

Lemma Forall2_right_witness {A B} (R : A -> B -> Prop) (xs : list A) (ys : list B) :
  Forall2 R xs ys -> Forall (fun y => exists x, x ∈ xs /\ R x y) ys.
Proof.
  induction 1 as [|x y xs ys Hxy _ IH]; constructor.
  - exists x. split; [left|assumption].
  - eapply Forall_impl; [exact IH|]. simpl. intros y' (x' & Hin & Hr).
    exists x'. split; [right|]; assumption.
Qed.

(** What the depth-first product generates: every row extends the prefix
    by one domain value per remaining parameter, and has passed the
    check as a complete row. *)
Lemma product_rows (cs : list Constraint) (names : list string)
    (rest : list DiscreteParameter) :
  forall (prefix : Row) (rows : list Row),
    product cs names prefix rest = Return rows ->
    Forall (fun row =>
              check cs names row = Return true /\
              exists suffix, row = prefix ++ suffix /\
                Forall2 (fun p v => v ∈ param_values p) rest suffix) rows.
Proof.
  induction rest as [|p rest IH]; intros prefix rows H; simpl in H;
    apply bind_Return in H as (ok & Hok & H); destruct ok.
  - injection H as <-. repeat constructor; [assumption|].
    exists []. rewrite app_nil_r. split; [reflexivity|constructor].
  - injection H as <-. constructor.
  - apply bind_Return in H as (parts & Hparts & H). injection H as <-.
    apply Forall_concat. apply traverse_Forall2, Forall2_right_witness in Hparts.
    eapply Forall_impl; [exact Hparts|]. simpl. intros part (v & Hin & Hv).
    apply IH in Hv. eapply Forall_impl; [exact Hv|]. simpl.
    intros row (Hcheck & suffix & -> & Hsuffix). split; [assumption|].
    exists (v :: suffix). rewrite <- app_assoc. split; [reflexivity|].
    constructor; assumption.
  - injection H as <-. constructor.
Qed.

Lemma missing_name_None (wanted available : list string) :
  missing_name wanted available = None <-> Forall (fun n => n ∈ available) wanted.
Proof.
  unfold missing_name. induction wanted as [|n wanted IH]; simpl.
  - split; [constructor|reflexivity].
  - destruct (bool_decide_reflect (n ∈ available)) as [Hin|Hout]; simpl.
    + rewrite IH. split; [constructor; assumption|]. intros H; inversion H; assumption.
    + split; [discriminate|]. intros H; inversion H; contradiction.
Qed.

Lemma validate_constraints_Return (names : list string) (cs : list Constraint) :
  validate_constraints names cs = Return tt ->
  Forall (fun c =>
            Forall (fun n => n ∈ names) (constraint_parameters c) /\
            match c with
            | CustomConstraint ps v => Forall (fun n => n ∈ ps) (reads v)
            | TableFilter _ _ => True
            end) cs.
Proof.
  induction cs as [|c cs IH]; simpl; [constructor|].
  destruct (missing_name (constraint_parameters c) names) eqn:Hc; [discriminate|].
  apply missing_name_None in Hc.
  destruct c as [ps v|ps keep].
  - destruct (missing_name (reads v) ps) eqn:Hv; [discriminate|].
    apply missing_name_None in Hv. intros H. constructor; auto.
  - intros H. constructor; auto.
Qed.

Lemma ready_all_assigned (names : list string) (c : Constraint) :
  Forall (fun n => n ∈ names) (constraint_parameters c) ->
  ready names c = true \/ exists ps keep, c = TableFilter ps keep.
Proof.
  destruct c as [ps v|ps keep]; simpl; [|eauto]. intros H. left.
  apply forallb_forall. intros n Hn. apply bool_decide_eq_true.
  rewrite Forall_forall in H. apply H. apply list_elem_of_In. exact Hn.
Qed.

(** On a complete row every row predicate is ready, so a row that passes
    the check satisfies every constraint of the space. *)
Lemma check_complete_row (names : list string) (cs : list Constraint) (row : Row) :
  Forall (fun c => Forall (fun n => n ∈ names) (constraint_parameters c)) cs ->
  length row = length names ->
  check cs names row = Return true ->
  Forall (fun c => is_valid c (row_series names row) = Return true) cs.
Proof.
  intros Hcs Hlen. unfold check. rewrite Hlen, firstn_all.
  induction Hcs as [|c cs Hc _ IH]; [constructor|].
  rewrite filter_cons. destruct (ready_all_assigned names c Hc) as [Hr|(ps & keep & ->)].
  - rewrite decide_True by assumption. simpl.
    destruct (is_valid c (row_series names row)) as [[|]|e] eqn:Hv; simpl;
      try discriminate.
    intros H. constructor; [assumption|]. apply IH, H.
  - rewrite decide_False by (simpl; discriminate).
    intros H. constructor; [reflexivity|]. apply IH, H.
Qed.

Lemma apply_mask_subseteq (mask : list bool) (rows : list Row) :
  apply_mask mask rows ⊆ rows.
Proof.
  unfold apply_mask. intros r Hr.
  apply list_elem_of_fmap in Hr as ([r' b] & -> & Hin).
  apply list_elem_of_filter in Hin as [_ Hin]. simpl.
  eapply elem_of_zip_l, Hin.
Qed.

Lemma apply_table_filters_subseteq (names : list string) (cs : list Constraint) :
  forall rows, foldl (apply_table_filter names) rows cs ⊆ rows.
Proof.
  induction cs as [|c cs IH]; intros rows; simpl; [reflexivity|].
  etransitivity; [apply IH|].
  destruct c as [ps v|ps keep]; simpl; [reflexivity|apply apply_mask_subseteq].
Qed.

Lemma dedup_subseteq (rows : list Row) : forall seen, dedup seen rows ⊆ rows.
Proof.
  induction rows as [|r rows IH]; intros seen; simpl; [reflexivity|].
  destruct (decide (r ∈ seen)).
  - intros x Hx. right. eapply IH, Hx.
  - intros x Hx. apply elem_of_cons in Hx as [->|Hx]; [left|right].
    eapply IH, Hx.
Qed.

(** The stages of [build], read back from a successful run. *)
Lemma build_Return (ps : list DiscreteParameter) (cs : list Constraint)
    (allow_duplicates : bool) (s : Subspace) :
  build ps cs allow_duplicates = Return s ->
  parameters s = ps /\ constraints s = cs /\
  validate ps cs = Return tt /\
  computational ps (exp_rep s) = Return (comp_rep s) /\
  exists generated,
    product cs (param_name <$> ps) [] ps = Return generated /\
    exp_rep s =
      (let filtered := foldl (apply_table_filter (param_name <$> ps)) generated cs in
       if allow_duplicates then filtered else dedup [] filtered) /\
    exp_rep s ⊆ generated.
Proof.
  unfold build. intros H.
  apply bind_Return in H as ([] & Hval & H).
  apply bind_Return in H as (generated & Hgen & H).
  apply bind_Return in H as (comp & Hcomp & H).
  injection H as <-. simpl. repeat split; try assumption.
  exists generated. split; [assumption|]. split; [reflexivity|].
  destruct allow_duplicates.
  - apply apply_table_filters_subseteq.
  - etransitivity; [apply dedup_subseteq|apply apply_table_filters_subseteq].
Qed.

Lemma validate_Return (ps : list DiscreteParameter) (cs : list Constraint) :
  validate ps cs = Return tt ->
  NoDup (param_name <$> ps) /\
  validate_constraints (param_name <$> ps) cs = Return tt.
Proof.
  unfold validate. destruct (bool_decide_reflect (NoDup (param_name <$> ps)));
    [auto|discriminate].
Qed.

(** Constraint soundness of the builder: every row of a built subspace
    holds one domain value per parameter, in declaration order, and
    satisfies every constraint. *)
Lemma build_sound (ps : list DiscreteParameter) (cs : list Constraint)
    (allow_duplicates : bool) (s : Subspace) :
  build ps cs allow_duplicates = Return s ->
  Forall (fun row =>
            Forall2 (fun p v => v ∈ param_values p) ps row /\
            Forall (fun c => is_valid c (row_series (param_name <$> ps) row) = Return true) cs)
         (exp_rep s).
Proof.
  intros H. apply build_Return in H as (_ & _ & Hval & _ & generated & Hgen & _ & Hsub).
  apply validate_Return in Hval as [_ Hval].
  apply validate_constraints_Return in Hval.
  apply product_rows in Hgen. rewrite Forall_forall in Hgen.
  apply Forall_forall. intros row Hrow.
  destruct (Hgen row (Hsub row Hrow)) as (Hcheck & suffix & -> & Hsuffix).
  simpl in *. split; [assumption|].
  apply check_complete_row; [|rewrite length_fmap; symmetry; eapply Forall2_length, Hsuffix|assumption].
  eapply Forall_impl; [exact Hval|]. simpl. tauto.
Qed.

(** *** Totality and completeness of the builder *)

Lemma index_of_elem {A} `{EqDecision A} (x : A) (l : list A) :
  x ∈ l -> is_Some (index_of x l).
Proof.
  induction l as [|y l IH]; intros Hin; [apply elem_of_nil in Hin; contradiction|].
  simpl. destruct (decide (x = y)); [eauto|].
  apply elem_of_cons in Hin as [->|Hin]; [contradiction|].
  destruct (IH Hin) as [i ->]. simpl. eauto.
Qed.

Lemma assoc_elem {A B} `{EqDecision A} (k : A) (b : B) (l : list (A * B)) :
  (k, b) ∈ l -> is_Some (assoc k l).
Proof.
  intros Hin. unfold assoc.
  destruct (List.find (fun kv => bool_decide (fst kv = k)) l) as [kv|] eqn:Hfind;
    [simpl; eauto|].
  apply list_elem_of_In in Hin.
  pose proof (find_none _ _ Hfind _ Hin) as Hk. simpl in Hk.
  apply bool_decide_eq_false in Hk. contradiction.
Qed.

(** The encoding is total over the declared domain. *)
Lemma encode_total (p : DiscreteParameter) (v : value) :
  v ∈ param_values p -> returns (encode p v).
Proof.
  destruct p as [n vs [|]|n vs tol|n data featurizer]; simpl; intros Hv;
    apply list_elem_of_fmap in Hv as (x & -> & Hx); simpl.
  - destruct (index_of_elem x vs Hx) as [i ->]. eexists; reflexivity.
  - rewrite decide_True by assumption. eexists; reflexivity.
  - rewrite decide_True by assumption. eexists; reflexivity.
  - destruct x as [k smiles]. simpl. destruct (assoc_elem k smiles data Hx) as [b ->].
    eexists; reflexivity.
Qed.

Lemma encoding_table_total (p : DiscreteParameter) : returns (encoding_table p).
Proof.
  unfold encoding_table. apply traverse_returns, Forall_forall. intros v Hv.
  destruct (encode_total p v Hv) as [e ->]. eexists; reflexivity.
Qed.

Lemma lookup_encoding_total (p : DiscreteParameter) (table : list (value * list Qc))
    (v : value) :
  encoding_table p = Return table ->
  v ∈ param_values p ->
  returns (lookup_encoding p table v).
Proof.
  unfold encoding_table, lookup_encoding. intros Htable Hv.
  apply traverse_Forall2 in Htable.
  destruct (proj1 (list_elem_of_lookup _ _) Hv) as [i Hi].
  destruct (Forall2_lookup_l _ _ _ _ _ Htable Hi) as ([v' e] & Hentry & He).
  apply bind_Return in He as (e' & _ & Hpair). injection Hpair as <- <-.
  destruct (assoc_elem v e' table) as [b ->]; [|eexists; reflexivity].
  apply list_elem_of_lookup. eauto.
Qed.

Lemma encode_columns_total (ps : list DiscreteParameter) (rows : list Row) :
  forall i : nat,
    Forall (fun row => Forall2 (fun p v => v ∈ param_values p) ps (drop i row)) rows ->
    returns (encode_columns i ps rows).
Proof.
  induction ps as [|p ps IH]; intros i Hrows; simpl; [eexists; reflexivity|].
  assert (Hcells : exists cells, column i rows = Return cells /\
                     Forall (fun v => v ∈ param_values p) cells).
  { clear IH. unfold column.
    induction Hrows as [|row rows Hrow _ [cells [Hc Hd]]]; simpl.
    - exists []. split; [reflexivity|constructor].
    - apply Forall2_cons_inv_l in Hrow as (v & rest & Hv & _ & Hdrop).
      assert (Hi : row !! i = Some v).
      { rewrite <- (Nat.add_0_r i), <- lookup_drop, Hdrop. reflexivity. }
      rewrite Hi. simpl. rewrite Hc. simpl.
      exists (v :: cells). split; [reflexivity|constructor; assumption]. }
  destruct Hcells as (cells & -> & Hcells). simpl.
  unfold encode_column. destruct (encoding_table_total p) as [table Htable].
  rewrite Htable. simpl.
  destruct (traverse_returns (lookup_encoding p table) cells) as [block ->].
  { eapply Forall_impl; [exact Hcells|]. intros v Hv.
    eapply lookup_encoding_total; eassumption. }
  simpl. destruct (IH (S i)) as [blocks ->]; [|eexists; reflexivity].
  eapply Forall_impl; [exact Hrows|]. simpl. intros row Hrow.
  apply Forall2_cons_inv_l in Hrow as (v & rest & _ & Hrest & Hdrop).
  replace (drop (S i) row) with rest; [exact Hrest|].
  replace (S i) with (i + 1)%nat by lia. rewrite <- drop_drop, Hdrop. reflexivity.
Qed.

(** Rows made of domain values always encode. *)
Lemma computational_total (ps : list DiscreteParameter) (rows : list Row) :
  Forall (fun row => Forall2 (fun p v => v ∈ param_values p) ps row) rows ->
  returns (computational ps rows).
Proof.
  intros Hrows. unfold computational.
  destruct (encode_columns_total ps rows 0%nat Hrows) as [blocks ->].
  eexists; reflexivity.
Qed.

(** The product returns as long as no check raises on a candidate
    prefix. *)
Lemma product_total (cs : list Constraint) (names : list string)
    (rest : list DiscreteParameter) :
  forall prefix : Row,
    (forall suffix,
       Forall2 (fun p v => v ∈ param_values p) (take (length suffix) rest) suffix ->
       returns (check cs names (prefix ++ suffix))) ->
    returns (product cs names prefix rest).
Proof.
  induction rest as [|p rest IH]; intros prefix Hcheck; simpl;
    (destruct (Hcheck []) as [ok Hok]; [simpl; constructor|]);
    rewrite app_nil_r in Hok; rewrite Hok; simpl;
    destruct ok; try (eexists; reflexivity).
  destruct (traverse_returns (fun v => product cs names (prefix ++ [v]) rest)
              (param_values p)) as [parts ->]; [|eexists; reflexivity].
  apply Forall_forall. intros v Hv. apply IH. intros suffix Hsuffix.
  rewrite <- app_assoc. apply (Hcheck (v :: suffix)). simpl.
  constructor; assumption.
Qed.

(** Constraint completeness of the product: a candidate row none of whose
    prefixes is rejected is generated. *)
Lemma product_complete (cs : list Constraint) (names : list string)
    (rest : list DiscreteParameter) :
  forall (prefix : Row) (rows : list Row) (suffix : Row),
    product cs names prefix rest = Return rows ->
    Forall2 (fun p v => v ∈ param_values p) rest suffix ->
    (forall k, check cs names (prefix ++ take k suffix) = Return true) ->
    prefix ++ suffix ∈ rows.
Proof.
  induction rest as [|p rest IH]; intros prefix rows suffix H Hsuffix Hcheck;
    simpl in H; apply bind_Return in H as (ok & Hok & H);
    pose proof (Hcheck 0%nat) as H0; rewrite take_0, app_nil_r in H0;
    rewrite H0 in Hok; injection Hok as <-.
  - inversion Hsuffix; subst. injection H as <-. rewrite app_nil_r. left.
  - apply bind_Return in H as (parts & Hparts & H). injection H as <-.
    inversion Hsuffix as [|? v ? suffix' Hv Hsuffix']; subst.
    apply traverse_Forall2 in Hparts.
    destruct (proj1 (list_elem_of_lookup _ _) Hv) as [i Hi].
    destruct (Forall2_lookup_l _ _ _ _ _ Hparts Hi) as (part & Hpart & Hprod).
    apply list_elem_of_In, in_concat. exists part. split.
    + apply list_elem_of_In, list_elem_of_lookup. eauto.
    + apply list_elem_of_In.
      replace (prefix ++ v :: suffix') with ((prefix ++ [v]) ++ suffix')
        by (rewrite <- app_assoc; reflexivity).
      eapply IH; [exact Hprod|exact Hsuffix'|].
      intros k. rewrite <- app_assoc. apply (Hcheck (S k)).
Qed.

Lemma dedup_elem (rows : list Row) (r : Row) :
  forall seen, r ∈ rows -> r ∉ seen -> r ∈ dedup seen rows.
Proof.
  induction rows as [|r' rows IH]; intros seen Hin Hseen;
    [apply elem_of_nil in Hin; contradiction|].
  simpl. destruct (decide (r' ∈ seen)) as [Hr'|Hr'].
  - apply elem_of_cons in Hin as [->|Hin]; [contradiction|]. apply IH; assumption.
  - destruct (decide (r = r')) as [->|Hne]; [left|]. right.
    apply elem_of_cons in Hin as [->|Hin]; [contradiction|].
    apply IH; [assumption|]. rewrite elem_of_cons. tauto.
Qed.

(** [build] returns once the configuration is valid and no check raises
    on a candidate prefix. *)
Lemma build_total (ps : list DiscreteParameter) (cs : list Constraint)
    (allow_duplicates : bool) :
  validate ps cs = Return tt ->
  (forall suffix,
     Forall2 (fun p v => v ∈ param_values p) (take (length suffix) ps) suffix ->
     returns (check cs (param_name <$> ps) suffix)) ->
  returns (build ps cs allow_duplicates).
Proof.
  intros Hval Hcheck. unfold build. rewrite Hval. simpl.
  destruct (product_total cs (param_name <$> ps) ps [] Hcheck) as [generated Hgen].
  rewrite Hgen. simpl.
  set (rows := if allow_duplicates
               then foldl (apply_table_filter (param_name <$> ps)) generated cs
               else dedup [] (foldl (apply_table_filter (param_name <$> ps)) generated cs)).
  destruct (computational_total ps rows) as [comp ->]; [|eexists; reflexivity].
  apply product_rows in Hgen. rewrite Forall_forall in Hgen.
  apply Forall_forall. intros row Hrow.
  assert (Hin : row ∈ generated).
  { subst rows. destruct allow_duplicates.
    - eapply apply_table_filters_subseteq, Hrow.
    - eapply apply_table_filters_subseteq, dedup_subseteq, Hrow. }
  destruct (Hgen row Hin) as (_ & suffix & -> & Hsuffix). exact Hsuffix.
Qed.

End BuilderFacts.

(* ===================================================================== *)
(** ** The script's validator and search space *)
(* ===================================================================== *)

Section ScriptFacts.
Import Py Search.

(** [custom_function] on a row that carries a solvent name, a temperature
    and a concentration: it accepts the row exactly when the row is not
    one of the forbidden combinations. *)
Lemma custom_function_spec (ser : Series) (s : string) (t c : Qc) :
  ser !! "Solvent" = Some (VStr s) ->
  ser !! "Temperature" = Some (VNum t) ->
  ser !! "Concentration" = Some (VNum c) ->
  custom_function ser = Return (negb (forbidden s t c)).
Proof.
  intros Hs Ht Hc. unfold custom_function, custom_function_C3, forbidden, getattr.
  rewrite Hs, Ht, Hc. simpl.
  destruct (String.eqb_spec s "water") as [->|Hw]; simpl.
  - destruct (bool_decide (Z2Qc 120 < t)%Qc), (bool_decide (Z2Qc 5 < c)%Qc),
      (bool_decide (Z2Qc 180 < t)%Qc), (bool_decide (Z2Qc 3 < c)%Qc); reflexivity.
  - destruct (String.eqb s "C3"); simpl; [|reflexivity].
    destruct (bool_decide (t < Z2Qc 150)%Qc), (bool_decide (Z2Qc 3 < c)%Qc); reflexivity.
Qed.

Lemma iterate_discrete (batches : list (list Row)) :
  forall s, discrete (iterate batches s) = discrete s.
Proof.
  unfold iterate. induction batches as [|b batches IH]; intros s; simpl; [reflexivity|].
  rewrite IH. reflexivity.
Qed.

(** The cells a validator sees for a row of the script's space. *)
Lemma script_row_lookup (v1 v2 v3 v4 : value) :
  let ser := project ["Concentration"; "Solvent"; "Temperature"]
               (row_series script_names [v1; v2; v3; v4]) in
  ser !! "Solvent" = Some v1 /\ ser !! "Temperature" = Some v3 /\
  ser !! "Concentration" = Some v4 /\ ser !! "Speed" = None.
Proof. repeat split; vm_compute; reflexivity. Qed.

Lemma script_constraint_Return : script_constraint = Return script_custom.
Proof. reflexivity. Qed.

(** A row of the script's space holds a solvent name, a speed, a
    temperature and a concentration. *)
Lemma script_row_typed (rdkit : string -> list Qc) (row : Row) :
  Forall2 (fun p v => v ∈ param_values p) (script_parameters rdkit) row ->
  exists s sp t c, row = [VStr s; VStr sp; VNum t; VNum c].
Proof.
  intros Hrow.
  apply Forall2_cons_inv_l in Hrow as (v1 & row1 & Hv1 & Hrow & ->).
  apply Forall2_cons_inv_l in Hrow as (v2 & row2 & Hv2 & Hrow & ->).
  apply Forall2_cons_inv_l in Hrow as (v3 & row3 & Hv3 & Hrow & ->).
  apply Forall2_cons_inv_l in Hrow as (v4 & row4 & Hv4 & Hrow & ->).
  apply Forall2_nil_inv_l in Hrow as ->.
  change (v1 ∈ (fun kv : string * string => VStr (fst kv)) <$> dict_solvent) in Hv1.
  change (v2 ∈ VStr <$> ["very slow"; "slow"; "normal"; "fast"; "very fast"]) in Hv2.
  change (v3 ∈ VNum <$> linspace (Z2Qc 100) (Z2Qc 200) 10) in Hv3.
  change (v4 ∈ VNum <$> (Z2Qc <$> [1; 2; 5; 10]%Z)) in Hv4.
  apply list_elem_of_fmap in Hv1 as ([s smiles] & -> & _).
  apply list_elem_of_fmap in Hv2 as (sp & -> & _).
  apply list_elem_of_fmap in Hv3 as (t & -> & _).
  apply list_elem_of_fmap in Hv4 as (c & -> & _).
  exists s, sp, t, c. reflexivity.
Qed.

(** The validator's verdict on a complete row of the script's space. *)
Lemma script_is_valid (s sp : string) (t c : Qc) :
  is_valid script_custom (row_series script_names [VStr s; VStr sp; VNum t; VNum c])
  = Return (negb (forbidden s t c)).
Proof.
  destruct (script_row_lookup (VStr s) (VStr sp) (VNum t) (VNum c)) as (Ls & Lt & Lc & _).
  unfold script_custom, is_valid. change (call custom_validator) with custom_function.
  rewrite (custom_function_spec _ s t c Ls Lt Lc). reflexivity.
Qed.

Lemma script_check_complete (s sp : string) (t c : Qc) :
  check [script_custom] script_names [VStr s; VStr sp; VNum t; VNum c]
  = Return (negb (forbidden s t c)).
Proof.
  change (check [script_custom] script_names [VStr s; VStr sp; VNum t; VNum c])
    with (do ok <- is_valid script_custom
                     (row_series script_names [VStr s; VStr sp; VNum t; VNum c]);
          if ok then Return true else Return false).
  rewrite script_is_valid. simpl. destruct (forbidden s t c); reflexivity.
Qed.

(** The constraint needs the concentration, the last parameter: shorter
    prefixes pass unchecked. *)
Lemma script_check_prefix (prefix : Row) :
  (length prefix < 4)%nat -> check [script_custom] script_names prefix = Return true.
Proof.
  intros Hlen. destruct prefix as [|v1 [|v2 [|v3 [|v4 rest]]]];
    [reflexivity..|simpl in Hlen; lia].
Qed.

Lemma script_check_total (rdkit : string -> list Qc) (suffix : Row) :
  Forall2 (fun p v => v ∈ param_values p)
          (take (length suffix) (script_parameters rdkit)) suffix ->
  returns (check [script_custom] script_names suffix).
Proof.
  intros Hsuffix.
  destruct (decide (length suffix < 4)%nat) as [Hshort|Hlong].
  - rewrite script_check_prefix by assumption. eexists; reflexivity.
  - pose proof (Forall2_length _ _ _ Hsuffix) as Hlen.
    rewrite length_take in Hlen. simpl in Hlen.
    rewrite take_ge in Hsuffix by (simpl; lia).
    destruct (script_row_typed rdkit suffix Hsuffix) as (s & sp & t & c & ->).
    rewrite script_check_complete. eexists; reflexivity.
Qed.

Lemma script_build_returns (rdkit : string -> list Qc) :
  returns (build (script_parameters rdkit) [script_custom] false).
Proof.
  apply build_total; [reflexivity|]. apply script_check_total.
Qed.

(** The first row of the product is part of the built space. *)
Lemma script_first_row (rdkit : string -> list Qc) (sub : Subspace) :
  build (script_parameters rdkit) [script_custom] false = Return sub ->
  [VStr "water"; VStr "very slow"; VNum (Z2Qc 100); VNum (Z2Qc 1)] ∈ exp_rep sub.
Proof.
  intros Hbuild.
  apply build_Return in Hbuild as (_ & _ & _ & _ & generated & Hgen & -> & _).
  simpl. apply dedup_elem; [|apply not_elem_of_nil].
  apply (product_complete _ _ _ [] generated _ Hgen).
  - repeat constructor; decide_by_computation.
  - intros k. simpl app.
    destruct k as [|[|[|[|k]]]];
      try (apply script_check_prefix; simpl; lia).
    change (check [script_custom] script_names
              [VStr "water"; VStr "very slow"; VNum (Z2Qc 100); VNum (Z2Qc 1)]
            = Return true).
    rewrite script_check_complete. reflexivity.
Qed.

(** A mask of the script, summed over rows none of which matches it. *)
Lemma count_entries_none (conc_gt : Qc) (temp : value -> result bool)
    (tempb : Qc -> bool) (solvent_name : string) (sub : Subspace) :
  param_name <$> parameters sub = script_names ->
  (forall t, temp (VNum t) = Return (tempb t)) ->
  Forall (fun row => exists s sp t c,
            row = [VStr s; VStr sp; VNum t; VNum c] /\
            bool_decide (conc_gt < c)%Qc && tempb t && String.eqb s solvent_name = false)
         (exp_rep sub) ->
  count_entries conc_gt temp solvent_name sub = Return 0%nat.
Proof.
  intros Hnames Htemp Hrows. unfold count_entries, getitem. rewrite Hnames.
  change (index_of "Concentration" script_names) with (Some 3%nat).
  change (index_of "Temperature" script_names) with (Some 2%nat).
  change (index_of "Solvent" script_names) with (Some 0%nat).
  assert (Hcols : exists conc m1 temps m2 solvents,
    column 3 (exp_rep sub) = Return conc /\
    apply (fun x => gt_num x conc_gt) conc = Return m1 /\
    column 2 (exp_rep sub) = Return temps /\
    apply temp temps = Return m2 /\
    column 0 (exp_rep sub) = Return solvents /\
    and_sum m1 m2 ((fun x => eq_str x solvent_name) <$> solvents) = 0%nat).
  { unfold column, apply.
    induction Hrows as [|row rows (s & sp & t & c & -> & Hmask) _
                          (conc & m1 & temps & m2 & solvents & H1 & H2 & H3 & H4 & H5 & H6)].
    - exists [], [], [], [], []. repeat split; reflexivity.
    - exists (VNum c :: conc), (bool_decide (conc_gt < c)%Qc :: m1),
             (VNum t :: temps), (tempb t :: m2), (VStr s :: solvents).
      simpl. rewrite H1, H2, H3, H4, H5, Htemp. simpl.
      repeat split; try reflexivity.
      unfold and_sum in *. simpl. rewrite filter_cons_False; [exact H6|].
      rewrite Hmask. discriminate. }
  destruct Hcols as (conc & m1 & temps & m2 & solvents & -> & H2 & -> & H4 & -> & H6).
  simpl. rewrite H2. simpl. rewrite H4. simpl. rewrite H6. reflexivity.
Qed.

(** C1: the script's search space builds and is not empty.  After the
    build and after any number of recommend / add_measurements rounds,
    whatever batches the recommender picks, every row of the
    experimental representation is accepted by the validator, none is
    one of the three forbidden combinations, and each of the three
    counts printed by the script is 0. *)
Theorem script_space_obeys_constraint (rdkit : string -> list Qc) :
  exists space, script_searchspace rdkit = Return space /\
    forall batches : list (list Row),
      let sub := discrete (iterate batches space) in
      [VStr "water"; VStr "very slow"; VNum (Z2Qc 100); VNum (Z2Qc 1)] ∈ exp_rep sub /\
      Forall (fun row =>
          call custom_validator
               (project ["Concentration"; "Solvent"; "Temperature"]
                        (row_series script_names row)) = Return true /\
          exists s sp t c, row = [VStr s; VStr sp; VNum t; VNum c] /\
            ~ (s = "water" /\ (Z2Qc 120 < t)%Qc /\ (Z2Qc 5 < c)%Qc) /\
            ~ (s = "water" /\ (Z2Qc 180 < t)%Qc /\ (Z2Qc 3 < c)%Qc) /\
            ~ (s = "C3" /\ (t < Z2Qc 150)%Qc /\ (Z2Qc 3 < c)%Qc))
        (exp_rep sub) /\
      count_water_120_5 sub = Return 0%nat /\
      count_water_180_3 sub = Return 0%nat /\
      count_C3_150_3 sub = Return 0%nat.
Proof.
  destruct (script_build_returns rdkit) as [sub Hbuild].
  exists {| discrete := sub; measured := []; recommended := [] |}. split.
  { unfold script_searchspace. rewrite script_constraint_Return. simpl.
    unfold create_searchspace. fold script_custom. rewrite Hbuild. reflexivity. }
  intros batches. simpl. rewrite iterate_discrete. simpl.
  split; [eapply script_first_row, Hbuild|].
  assert (Hrows : Forall (fun row => exists s sp t c,
            row = [VStr s; VStr sp; VNum t; VNum c] /\ forbidden s t c = false)
          (exp_rep sub)).
  { pose proof (build_sound _ _ _ _ Hbuild) as Hsound.
    eapply Forall_impl; [exact Hsound|]. simpl. intros row (Hrow & Hvalid).
    destruct (script_row_typed rdkit row Hrow) as (s & sp & t & c & ->).
    exists s, sp, t, c. split; [reflexivity|].
    apply Forall_inv in Hvalid.
    change (param_name <$> script_parameters rdkit) with script_names in Hvalid.
    rewrite script_is_valid in Hvalid. injection Hvalid as Hvalid.
    apply negb_true_iff, Hvalid. }
  assert (Hnames : param_name <$> parameters sub = script_names).
  { apply build_Return in Hbuild as (-> & _). reflexivity. }
  unfold forbidden in Hrows. split; [|split; [|split]].
  - eapply Forall_impl; [exact Hrows|]. simpl.
    intros row (s & sp & t & c & -> & Hforbidden).
    destruct (script_row_lookup (VStr s) (VStr sp) (VNum t) (VNum c)) as (Ls & Lt & Lc & _).
    split.
    + change (call custom_validator) with custom_function.
      rewrite (custom_function_spec _ s t c Ls Lt Lc).
      unfold forbidden. rewrite Hforbidden. reflexivity.
    + exists s, sp, t, c. split; [reflexivity|].
      apply orb_false_iff in Hforbidden as [Hforbidden H150].
      apply orb_false_iff in Hforbidden as [H120 H180].
      repeat split; intros (-> & Ht & Hc);
        rewrite (bool_decide_eq_true_2 _ Ht), (bool_decide_eq_true_2 _ Hc) in *;
        discriminate.
  - apply (count_entries_none _ _ (fun t => bool_decide (Z2Qc 120 < t)%Qc));
      [assumption|reflexivity|].
    eapply Forall_impl; [exact Hrows|]. simpl.
    intros row (s & sp & t & c & -> & Hforbidden). exists s, sp, t, c.
    split; [reflexivity|].
    apply orb_false_iff in Hforbidden as [Hforbidden _].
    apply orb_false_iff in Hforbidden as [H120 _].
    destruct (String.eqb s "water"), (bool_decide (Z2Qc 120 < t)%Qc),
      (bool_decide (Z2Qc 5 < c)%Qc); simpl in *; congruence.
  - apply (count_entries_none _ _ (fun t => bool_decide (Z2Qc 180 < t)%Qc));
      [assumption|reflexivity|].
    eapply Forall_impl; [exact Hrows|]. simpl.
    intros row (s & sp & t & c & -> & Hforbidden). exists s, sp, t, c.
    split; [reflexivity|].
    apply orb_false_iff in Hforbidden as [Hforbidden _].
    apply orb_false_iff in Hforbidden as [_ H180].
    destruct (String.eqb s "water"), (bool_decide (Z2Qc 180 < t)%Qc),
      (bool_decide (Z2Qc 3 < c)%Qc); simpl in *; congruence.
  - apply (count_entries_none _ _ (fun t => bool_decide (t < Z2Qc 150)%Qc));
      [assumption|reflexivity|].
    eapply Forall_impl; [exact Hrows|]. simpl.
    intros row (s & sp & t & c & -> & Hforbidden). exists s, sp, t, c.
    split; [reflexivity|].
    apply orb_false_iff in Hforbidden as [_ H150].
    destruct (String.eqb s "C3"), (bool_decide (t < Z2Qc 150)%Qc),
      (bool_decide (Z2Qc 3 < c)%Qc); simpl in *; congruence.
Qed.

End ScriptFacts.

(* ===================================================================== *)
(** ** Experimental and computational representation *)
(* ===================================================================== *)

Section RepresentationFacts.
Import Py Search.

Lemma assoc_Some {A B} `{EqDecision A} (k : A) (l : list (A * B)) (b : B) :
  assoc k l = Some b -> (k, b) ∈ l.
Proof.
  unfold assoc. destruct (List.find _ l) as [[k' b']|] eqn:Hfind; [|discriminate].
  intros [= <-]. apply find_some in Hfind as [Hin Hk].
  apply bool_decide_eq_true in Hk. simpl in Hk. subst k'.
  apply list_elem_of_In. exact Hin.
Qed.

(** A hit in the cached table is the encoding of the value looked up. *)
Lemma lookup_encoding_encode (p : DiscreteParameter) (table : list (value * list Qc))
    (v : value) (e : list Qc) :
  encoding_table p = Return table ->
  lookup_encoding p table v = Return e ->
  encode p v = Return e.
Proof.
  unfold encoding_table, lookup_encoding. intros Htable Hlookup.
  destruct (assoc v table) as [e'|] eqn:Hassoc; [|discriminate].
  injection Hlookup as ->. apply assoc_Some in Hassoc.
  apply traverse_Forall2, Forall2_right_witness in Htable.
  rewrite Forall_forall in Htable.
  destruct (Htable _ Hassoc) as (v' & _ & Hv').
  apply bind_Return in Hv' as (e' & He' & Hpair). injection Hpair as -> ->.
  exact He'.
Qed.

Lemma encode_column_Forall2 (p : DiscreteParameter) (cells : list value)
    (block : list (list Qc)) :
  encode_column p cells = Return block ->
  Forall2 (fun c e => encode p c = Return e) cells block.
Proof.
  unfold encode_column. intros H.
  apply bind_Return in H as (table & Htable & H).
  apply traverse_Forall2 in H. eapply Forall2_impl; [exact H|].
  simpl. intros c e. apply lookup_encoding_encode, Htable.
Qed.

Lemma column_Forall2 (i : nat) (rows : list Row) (cells : list value) :
  column i rows = Return cells ->
  Forall2 (fun r c => r !! i = Some c) rows cells.
Proof.
  unfold column. intros H. apply traverse_Forall2 in H.
  eapply Forall2_impl; [exact H|]. simpl. intros r c.
  destruct (r !! i); [intros [= ->]; reflexivity|discriminate].
Qed.

Lemma zip_with_app_assoc {A} (a b c : list (list A)) :
  zip_with app (zip_with app a b) c = zip_with app a (zip_with app b c).
Proof.
  revert b c. induction a as [|x a IH]; intros [|y b] [|z c]; simpl; try reflexivity.
  rewrite IH, app_assoc. reflexivity.
Qed.

Lemma foldl_zip_with_app {A} (a b : list (list A)) (bs : list (list (list A))) :
  foldl (zip_with app) (zip_with app a b) bs = zip_with app a (foldl (zip_with app) b bs).
Proof.
  revert b. induction bs as [|c bs IH]; intros b; simpl; [reflexivity|].
  rewrite zip_with_app_assoc. apply IH.
Qed.

Lemma zip_with_app_nil_l {A} (b : list (list A)) :
  zip_with app (replicate (length b) []) b = b.
Proof. induction b as [|x b IH]; simpl; [reflexivity|]. rewrite IH. reflexivity. Qed.

Lemma zip_with_app_nil_r {A} (b : list (list A)) :
  zip_with app b (replicate (length b) []) = b.
Proof.
  induction b as [|x b IH]; simpl; [reflexivity|]. rewrite IH, app_nil_r. reflexivity.
Qed.

(** Placing a block in front of the others prefixes every row with the
    block's vector for that row. *)
Lemma hconcat_cons (block : list (list Qc)) (blocks : list (list (list Qc))) :
  hconcat (length block) (block :: blocks) =
  zip_with app block (hconcat (length block) blocks).
Proof.
  unfold hconcat. simpl. rewrite zip_with_app_nil_l.
  rewrite <- (zip_with_app_nil_r block) at 1. apply foldl_zip_with_app.
Qed.

Lemma encode_row_step (p : DiscreteParameter) (ps : list DiscreteParameter) (i : nat)
    (rows : list Row) :
  forall (cells : list value) (block rest : list (list Qc)),
    Forall2 (fun r c => r !! i = Some c) rows cells ->
    Forall2 (fun c e => encode p c = Return e) cells block ->
    Forall2 (fun r es => encode_row ps (drop (S i) r) = Return es) rows rest ->
    Forall2 (fun r y => encode_row (p :: ps) (drop i r) = Return y) rows
            (zip_with app block rest).
Proof.
  induction rows as [|r rows IH]; intros cells block rest Hcells Hblock Hrest.
  - inversion Hcells; subst. inversion Hblock; subst. constructor.
  - inversion Hcells as [|? c ? cells' Hc Hcells']; subst.
    inversion Hblock as [|? e ? block' He Hblock']; subst.
    inversion Hrest as [|? es ? rest' Hes Hrest']; subst.
    simpl. constructor; [|eapply IH; eassumption].
    rewrite (drop_S _ _ _ Hc). simpl. rewrite He. simpl. rewrite Hes. reflexivity.
Qed.

(** The column-wise encoding with cached tables yields, row by row, what
    encoding each row on its own yields. *)
Lemma encode_columns_rowwise (ps : list DiscreteParameter) (rows : list Row) :
  forall (i : nat) (blocks : list (list (list Qc))),
    Forall (fun r => length r = (i + length ps)%nat) rows ->
    encode_columns i ps rows = Return blocks ->
    Forall2 (fun r y => encode_row ps (drop i r) = Return y) rows
            (hconcat (length rows) blocks).
Proof.
  induction ps as [|p ps IH]; intros i blocks Hlen H; simpl in H.
  - injection H as <-. unfold hconcat. simpl.
    induction Hlen as [|r rows Hr _ IHrows]; simpl; constructor; [|exact IHrows].
    simpl in Hr. rewrite drop_ge by lia. reflexivity.
  - apply bind_Return in H as (cells & Hcells & H).
    apply bind_Return in H as (block & Hblock & H).
    apply bind_Return in H as (rest & Hrest & H). injection H as <-.
    assert (Hn : length rows = length block).
    { apply traverse_length in Hcells.
      unfold encode_column in Hblock.
      apply bind_Return in Hblock as (table & _ & Hblock).
      apply traverse_length in Hblock. congruence. }
    rewrite Hn, hconcat_cons, <- Hn.
    eapply encode_row_step.
    + apply column_Forall2, Hcells.
    + apply encode_column_Forall2, Hblock.
    + apply IH; [|exact Hrest].
      eapply Forall_impl; [exact Hlen|]. simpl. intros r Hr. rewrite Hr. simpl. lia.
Qed.

(** C4: in every built subspace the two representations have the same
    number of rows, in the same order, and the computational row at each
    position is what encoding the experimental row at that position on
    its own gives: each cell by its parameter's encoding, the pieces
    concatenated in parameter-declaration order. *)
Theorem representation_parity (ps : list DiscreteParameter) (cs : list Constraint)
    (allow_duplicates : bool) (s : Subspace) :
  build ps cs allow_duplicates = Return s ->
  length (exp_rep s) = length (comp_rep s) /\
  traverse (encode_row (parameters s)) (exp_rep s) = Return (comp_rep s) /\
  (forall (i : nat) (row : Row),
     exp_rep s !! i = Some row ->
     exists encoded, comp_rep s !! i = Some encoded /\
                     encode_row (parameters s) row = Return encoded) /\
  (forall (i : nat) (encoded : list Qc),
     comp_rep s !! i = Some encoded ->
     exists row, exp_rep s !! i = Some row /\
                 encode_row (parameters s) row = Return encoded).
Proof.
  intros Hbuild.
  assert (Hrows : Forall2 (fun r y => encode_row (parameters s) r = Return y)
                          (exp_rep s) (comp_rep s)).
  { pose proof (build_sound _ _ _ _ Hbuild) as Hsound.
    apply build_Return in Hbuild as (-> & _ & _ & Hcomp & _).
    unfold computational in Hcomp.
    apply bind_Return in Hcomp as (blocks & Hblocks & Hcomp). injection Hcomp as <-.
    apply (encode_columns_rowwise _ _ 0%nat); [|exact Hblocks].
    eapply Forall_impl; [exact Hsound|]. simpl. intros r [Hr _].
    symmetry. eapply Forall2_length, Hr. }
  split; [eapply Forall2_length, Hrows|].
  split; [apply traverse_Forall2, Hrows|]. split.
  - intros i row Hi.
    destruct (Forall2_lookup_l _ _ _ _ _ Hrows Hi) as (y & Hy & Henc). eauto.
  - intros i y Hi.
    destruct (Forall2_lookup_r _ _ _ _ _ Hrows Hi) as (r & Hr & Henc). eauto.
Qed.

(** A small space with the script's constraint: two of the eight product
    rows are pruned, and the six remaining rows are encoded alike by
    both routes. *)
Lemma representation_parity_witness :
  let ps := [Categorical "Solvent" ["water"; "C3"] OHE;
             NumericDiscrete "Temperature" [Z2Qc 100; Z2Qc 200] (Q2Qc (5 # 10));
             NumericDiscrete "Concentration" [Z2Qc 1; Z2Qc 10] (Q2Qc (4 # 10))] in
  let exp := [[VStr "water"; VNum (Z2Qc 100); VNum (Z2Qc 1)];
              [VStr "water"; VNum (Z2Qc 100); VNum (Z2Qc 10)];
              [VStr "water"; VNum (Z2Qc 200); VNum (Z2Qc 1)];
              [VStr "C3"; VNum (Z2Qc 100); VNum (Z2Qc 1)];
              [VStr "C3"; VNum (Z2Qc 200); VNum (Z2Qc 1)];
              [VStr "C3"; VNum (Z2Qc 200); VNum (Z2Qc 10)]] in
  let comp := [[Z2Qc 1; Z2Qc 0; Z2Qc 100; Z2Qc 1];
               [Z2Qc 1; Z2Qc 0; Z2Qc 100; Z2Qc 10];
               [Z2Qc 1; Z2Qc 0; Z2Qc 200; Z2Qc 1];
               [Z2Qc 0; Z2Qc 1; Z2Qc 100; Z2Qc 1];
               [Z2Qc 0; Z2Qc 1; Z2Qc 200; Z2Qc 1];
               [Z2Qc 0; Z2Qc 1; Z2Qc 200; Z2Qc 10]] in
  build ps [script_custom] false
    = Return {| parameters := ps; constraints := [script_custom];
                exp_rep := exp; comp_rep := comp |} /\
  length exp = length comp /\
  traverse (encode_row ps) exp = Return comp.
Proof.
  intros ps exp comp.
  assert (Hbuild : build ps [script_custom] false
                   = Return {| parameters := ps; constraints := [script_custom];
                               exp_rep := exp; comp_rep := comp |})
    by (vm_compute; reflexivity).
  split; [exact Hbuild|].
  destruct (representation_parity ps [script_custom] false _ Hbuild)
    as (Hlen & Hrows & _).
  split; [exact Hlen|exact Hrows].
Defined.

End RepresentationFacts.

(* ===================================================================== *)
(** ** Matching within tolerance *)
(* ===================================================================== *)

Section ToleranceFacts.
Import Py Search.








End ToleranceFacts.

(* ===================================================================== *)
(** ** The UUID converter hooks *)
(* ===================================================================== *)

Section UuidFacts.
Import Py Uuid.
Local Open Scope Z_scope.

Lemma digit_cases (d : Z) :
  is_digit d ->
  d ∈ [0; 1; 2; 3; 4; 5; 6; 7; 8; 9; 10; 11; 12; 13; 14; 15].
Proof.
  unfold is_digit. intros H.
  assert (Hd : d = 0 \/ d = 1 \/ d = 2 \/ d = 3 \/ d = 4 \/ d = 5 \/ d = 6 \/ d = 7 \/
               d = 8 \/ d = 9 \/ d = 10 \/ d = 11 \/ d = 12 \/ d = 13 \/ d = 14 \/ d = 15)
    by lia.
  rewrite !elem_of_cons, elem_of_nil. tauto.
Qed.

Lemma hex_value_digit (d : Z) : is_digit d -> hex_value (hex_digit d) = Some d.
Proof.
  intros H. apply digit_cases in H.
  repeat (apply elem_of_cons in H as [->|H]; [reflexivity|]).
  apply elem_of_nil in H. contradiction.
Qed.

Lemma hex_digit_lower (d : Z) : is_digit d -> hex_digit d ∈ lower_hex.
Proof.
  intros H. apply digit_cases in H.
  repeat (apply elem_of_cons in H as [->|H]; [decide_by_computation|]).
  apply elem_of_nil in H. contradiction.
Qed.

Lemma hex_digits_spec (fuel : nat) :
  forall n, 0 <= n < 16 ^ Z.of_nat fuel ->
    Forall is_digit (hex_digits fuel n) /\
    foldr (fun d acc => d + 16 * acc) 0 (hex_digits fuel n) = n.
Proof.
  induction fuel as [|fuel IH]; intros n Hn.
  - simpl in *. split; [constructor|lia].
  - simpl hex_digits. destruct (Z.ltb_spec n 16) as [Hlt|Hge].
    + split; [repeat constructor; unfold is_digit; lia|simpl; lia].
    + rewrite Nat2Z.inj_succ, Z.pow_succ_r in Hn by lia.
      destruct (IH (n / 16)) as [Hdigits Hvalue].
      { split; [apply Z.div_pos; lia|apply Z.div_lt_upper_bound; lia]. }
      split.
      * constructor; [|exact Hdigits]. unfold is_digit.
        apply Z.mod_pos_bound. lia.
      * simpl. rewrite Hvalue. symmetry. rewrite Z.add_comm. apply Z.div_mod. lia.
Qed.

Lemma hex_digits_length (fuel : nat) :
  forall (n : Z) (k : nat),
    0 <= n < 16 ^ Z.of_nat k -> (1 <= k)%nat -> (length (hex_digits fuel n) <= k)%nat.
Proof.
  induction fuel as [|fuel IH]; intros n k Hn Hk; simpl; [lia|].
  destruct (Z.ltb_spec n 16) as [Hlt|Hge]; simpl; [lia|].
  destruct k as [|[|k]]; [lia| |].
  - change (16 ^ Z.of_nat 1) with 16 in Hn. lia.
  - rewrite Nat2Z.inj_succ, Z.pow_succ_r in Hn by lia.
    specialize (IH (n / 16) (S k)).
    assert (length (hex_digits fuel (n / 16)) <= S k)%nat; [|lia].
    apply IH; [|lia].
    split; [apply Z.div_pos; lia|apply Z.div_lt_upper_bound; lia].
Qed.

Lemma enough_fuel (n : Z) : 0 <= n -> n < 16 ^ Z.of_nat (S (Z.to_nat (Z.log2 n))).
Proof.
  intros Hn. rewrite Nat2Z.inj_succ, Z2Nat.id by apply Z.log2_nonneg.
  destruct (Z.eq_dec n 0) as [->|Hne].
  - simpl. lia.
  - destruct (Z.log2_spec n) as [_ Hup]; [lia|].
    eapply Z.lt_le_trans; [exact Hup|].
    apply Z.pow_le_mono_l. pose proof (Z.log2_nonneg n). lia.
Qed.

Lemma foldl_rev_digits (ds : list Z) :
  foldl (fun a d => 16 * a + d) 0 (rev ds) = foldr (fun d acc => d + 16 * acc) 0 ds.
Proof.
  induction ds as [|d ds IH]; simpl; [reflexivity|].
  rewrite foldl_app. simpl. rewrite IH. lia.
Qed.

Lemma int_16_digits (ds : list Z) :
  forall a, Forall is_digit ds ->
    foldl int_16_step (Some a) (hex_digit <$> ds)
    = Some (foldl (fun a d => 16 * a + d) a ds).
Proof.
  induction ds as [|d ds IH]; intros a Hds; [reflexivity|].
  inversion Hds as [|? ? Hd Hds']; subst.
  change (foldl int_16_step (int_16_step (Some a) (hex_digit d)) (hex_digit <$> ds)
          = Some (foldl (fun a d => 16 * a + d) (16 * a + d) ds)).
  assert (Hstep : int_16_step (Some a) (hex_digit d) = Some (16 * a + d)).
  { unfold int_16_step. simpl. rewrite (hex_value_digit d Hd). reflexivity. }
  rewrite Hstep. apply IH, Hds'.
Qed.

Lemma int_16_zeros (k : nat) :
  foldl int_16_step (Some 0) (replicate k "0"%char) = Some 0.
Proof. induction k as [|k IH]; simpl; [reflexivity|exact IH]. Qed.

(** The 32 characters written for a 128-bit integer. *)
Lemma format_032x_spec (n : Z) :
  in_range n ->
  length (format_032x n) = 32%nat /\
  Forall (fun c => c ∈ lower_hex) (format_032x n) /\
  int_16 (format_032x n) = Return n.
Proof.
  intros [Hlo Hhi]. unfold format_032x, format_x.
  set (ds := hex_digits (S (Z.to_nat (Z.log2 n))) n).
  destruct (hex_digits_spec _ n (conj Hlo (enough_fuel n Hlo))) as [Hdigits Hvalue].
  fold ds in Hdigits, Hvalue.
  assert (Hlen : (length ds <= 32)%nat).
  { apply hex_digits_length; [|lia]. split; [exact Hlo|].
    change (16 ^ Z.of_nat 32) with (2 ^ 128). exact Hhi. }
  assert (Hlen32 : length (replicate (32 - length (hex_digit <$> rev ds)) "0"%char
                            ++ (hex_digit <$> rev ds)) = 32%nat).
  { rewrite length_app, length_replicate, length_fmap, length_rev. lia. }
  split; [exact Hlen32|]. split.
  - apply Forall_app. split.
    + apply Forall_replicate. decide_by_computation.
    + apply Forall_fmap, Forall_rev. eapply Forall_impl; [exact Hdigits|].
      intros d Hd. apply hex_digit_lower, Hd.
  - unfold int_16.
    destruct (replicate (32 - length (hex_digit <$> rev ds)) "0"%char
                ++ (hex_digit <$> rev ds)) as [|c rest] eqn:Hs; [discriminate|].
    rewrite <- Hs.
    rewrite foldl_app, int_16_zeros, int_16_digits by (apply Forall_rev, Hdigits).
    rewrite foldl_rev_digits, Hvalue. reflexivity.
Qed.

Lemma filter_all {A} (P : A -> Prop) `{forall x, Decision (P x)} (l : list A) :
  Forall P l -> filter P l = l.
Proof.
  induction 1 as [|x l Hx _ IH]; [reflexivity|].
  rewrite filter_cons_True by assumption. rewrite IH. reflexivity.
Qed.

Lemma slices_join (hex : list ascii) :
  take 8 hex ++ slice 8 12 hex ++ slice 12 16 hex ++ slice 16 20 hex ++ drop 20 hex
  = hex.
Proof.
  unfold slice.
  rewrite <- (take_drop 20 hex) at 6.
  rewrite <- (take_drop 16 (take 20 hex)) at 2.
  rewrite <- (take_drop 12 (take 16 (take 20 hex))).
  rewrite <- (take_drop 8 (take 12 (take 16 (take 20 hex)))).
  rewrite !take_take. simpl Nat.min. rewrite <- !app_assoc. reflexivity.
Qed.

Lemma hyphenate_Forall (P : ascii -> Prop) (hex : list ascii) :
  Forall P hex -> P "-"%char -> Forall P (hyphenate hex).
Proof.
  intros Hhex Hhyphen. unfold hyphenate, slice.
  repeat first [apply Forall_app; split | apply Forall_cons; split
               | apply Forall_take | apply Forall_drop | assumption].
Qed.

Lemma hyphenate_filter (hex : list ascii) :
  Forall (fun c => c <> "-"%char) hex ->
  filter (fun c => c <> "-"%char) (hyphenate hex) = hex.
Proof.
  intros Hhex. unfold hyphenate.
  repeat first [rewrite filter_app
               | rewrite filter_cons_False by (intros H; apply H; reflexivity)].
  rewrite !filter_all
    by (unfold slice; repeat first [apply Forall_take | apply Forall_drop | assumption]).
  apply slices_join.
Qed.

Lemma remove_all_absent (first : ascii) (rest s : list ascii) :
  Forall (fun c => c <> first) s -> remove_all (first :: rest) 0 s = s.
Proof.
  induction 1 as [|c s Hc _ IH]; [reflexivity|].
  simpl. rewrite bool_decide_eq_false_2 by congruence. simpl.
  simpl in IH. rewrite IH. reflexivity.
Qed.

Lemma lstrip_absent (set s : list ascii) :
  Forall (fun c => c ∉ set) s -> lstrip set s = s.
Proof.
  destruct 1 as [|c s Hc _]; [reflexivity|].
  simpl. rewrite bool_decide_eq_false_2 by assumption. reflexivity.
Qed.

Lemma strip_absent (set : string) (s : list ascii) :
  Forall (fun c => c ∉ chars set) s -> strip set s = s.
Proof.
  intros H. unfold strip. rewrite (lstrip_absent _ s H).
  rewrite lstrip_absent by (apply Forall_rev, H). apply rev_involutive.
Qed.

Lemma plain_facts (c : ascii) :
  plain c -> c <> "u"%char /\ c ∉ chars "{}".
Proof.
  unfold plain, lower_hex. intros H.
  repeat (apply elem_of_cons in H as [->|H];
          [split; [discriminate|decide_by_computation]|]).
  apply elem_of_nil in H. contradiction.
Qed.

Lemma lower_hex_not_hyphen (c : ascii) : c ∈ lower_hex -> c <> "-"%char.
Proof.
  unfold lower_hex. intros H.
  repeat (apply elem_of_cons in H as [->|H]; [discriminate|]).
  apply elem_of_nil in H. contradiction.
Qed.

(** [UUID(...)] reads a canonical string back. *)
Lemma UUID_from_hex_hyphenate (hex : list ascii) (n : Z) :
  length hex = 32%nat ->
  Forall (fun c => c ∈ lower_hex) hex ->
  int_16 hex = Return n ->
  in_range n ->
  UUID_from_hex (string_of_list_ascii (hyphenate hex)) = Return {| int := n |}.
Proof.
  intros Hlen Hhex Hint [Hlo Hhi].
  assert (Hplain : Forall plain (hyphenate hex)).
  { apply hyphenate_Forall; [|left].
    eapply Forall_impl; [exact Hhex|]. intros c Hc. right. exact Hc. }
  assert (Hu : Forall (fun c => c <> "u"%char) (hyphenate hex))
    by (eapply Forall_impl; [exact Hplain|]; intros c Hc; apply plain_facts, Hc).
  assert (Hbrace : Forall (fun c => c ∉ chars "{}") (hyphenate hex))
    by (eapply Forall_impl; [exact Hplain|]; intros c Hc; apply plain_facts, Hc).
  assert (Hclean :
    filter (fun c => c <> "-"%char)
      (strip "{}" (remove "uuid:" (remove "urn:"
         (chars (string_of_list_ascii (hyphenate hex)))))) = hex).
  { unfold remove. unfold chars at 3. rewrite list_ascii_of_string_of_list_ascii.
    change (chars "urn:") with ("u"%char :: chars "rn:").
    rewrite (remove_all_absent _ _ _ Hu).
    change (chars "uuid:") with ("u"%char :: chars "uid:").
    rewrite (remove_all_absent _ _ _ Hu).
    rewrite (strip_absent _ _ Hbrace).
    apply hyphenate_filter.
    eapply Forall_impl; [exact Hhex|]. apply lower_hex_not_hyphen. }
  unfold UUID_from_hex. cbv zeta. rewrite Hclean, Hlen, Hint. simpl.
  destruct (Z.leb_spec 0 n); [|lia].
  destruct (Z.ltb_spec n (2 ^ 128)); [reflexivity|lia].
Qed.

(** C5: the two hooks registered for [UUID] undo each other.  Structuring
    the string produced by unstructuring a UUID returns a UUID equal to
    the original, and unstructuring that result gives the same string
    again. *)
Theorem uuid_hooks_roundtrip (u : UUID) :
  in_range (int u) ->
  structure_hook (unstructure_hook u) tt = Return u /\
  (forall s, s = unstructure_hook u ->
     exists v, structure_hook s tt = Return v /\ unstructure_hook v = s).
Proof.
  intros Hrange.
  assert (Hround : structure_hook (unstructure_hook u) tt = Return u).
  { destruct (format_032x_spec (int u) Hrange) as (Hlen & Hhex & Hint).
    unfold structure_hook, unstructure_hook, str.
    rewrite (UUID_from_hex_hyphenate _ (int u) Hlen Hhex Hint Hrange).
    destruct u. reflexivity. }
  split; [exact Hround|]. intros s ->. exists u. split; [exact Hround|reflexivity].
Qed.

Lemma uuid_hooks_roundtrip_witness :
  let u := {| int := 0x12345678123456781234567812345678 |} in
  unstructure_hook u = "12345678-1234-5678-1234-567812345678" /\
  structure_hook "12345678-1234-5678-1234-567812345678" tt = Return u.
Proof.
  intros u.
  assert (Hstr : unstructure_hook u = "12345678-1234-5678-1234-567812345678")
    by (vm_compute; reflexivity).
  split; [exact Hstr|]. rewrite <- Hstr.
  apply (uuid_hooks_roundtrip u). unfold in_range. simpl. lia.
Defined.

End UuidFacts.

(* ===================================================================== *)
(** ** More on binary targets *)
(* ===================================================================== *)

Section BinaryMore.
Import Py Binary.

Lemma py_eq_congr (v w p : object) : py_eq v w = true -> py_eq v p = py_eq w p.
Proof.
  intros Hvw. destruct (py_eq w p) eqn:Hwp.
  - eapply py_eq_trans; eassumption.
  - destruct (py_eq v p) eqn:Hvp; [|reflexivity].
    rewrite py_eq_sym in Hvw. rewrite <- Hwp. symmetry.
    eapply py_eq_trans; eassumption.
Qed.

(** X1: the encoding respects Python equality.  Two values that compare
    equal, such as [True] and [1], get the same code from every target,
    and one is outside a target's domain exactly when the other is. *)
Theorem transform_to_binary_respects_eq (t : BinaryTarget) (v w : object) :
  py_eq v w = true ->
  (forall c, transform_to_binary t v = Return c <-> transform_to_binary t w = Return c) /\
  (raises (transform_to_binary t v) <-> raises (transform_to_binary t w)).
Proof.
  intros Hvw. unfold transform_to_binary, raises.
  rewrite (py_eq_congr v w (positive_value t) Hvw),
          (py_eq_congr v w (negative_value t) Hvw).
  destruct (py_eq w (positive_value t)); [split; [reflexivity|]|].
  - split; intros [e He]; discriminate.
  - destruct (py_eq w (negative_value t)); [split; [reflexivity|]|].
    + split; intros [e He]; discriminate.
    + split; [intros c; split; discriminate|]. split; intros _; eexists; reflexivity.
Qed.

Lemma transform_to_binary_respects_eq_witness :
  transform_to_binary (default "hit") (PBool true) = Return 1 <->
  transform_to_binary (default "hit") (PInt 1) = Return 1.
Proof.
  apply (transform_to_binary_respects_eq (default "hit") (PBool true) (PInt 1)).
  reflexivity.
Defined.

Lemma traverse_first_offender (t : BinaryTarget) (good : Series) (bad : object)
    (rest : Series) :
  Forall (in_domain t) good -> ~ in_domain t bad ->
  traverse (transform_to_binary t) (good ++ bad :: rest)
  = Raise (UnknownTargetError (unknown_target_message t bad)).
Proof.
  intros Hgood Hbad. induction Hgood as [|v good Hv _ IH]; simpl.
  - rewrite (transform_to_binary_outside t bad Hbad). reflexivity.
  - apply transform_to_binary_returns_iff in Hv as [c ->]. simpl.
    rewrite IH. reflexivity.
Qed.

(** X2: [transform] is all or nothing.  When a cell of the column is
    outside the target's domain, the call raises the
    [UnknownTargetError] of the first such cell and the frame keeps its
    old contents, the cells before it included. *)
Theorem transform_first_offender (t : BinaryTarget) (data : ref) (σ : store)
    (label : string) (good : Series) (bad : object) (rest : Series) :
  σ !! data = Some [(label, good ++ bad :: rest)] ->
  Forall (in_domain t) good ->
  ~ in_domain t bad ->
  transform t data σ
  = Some (Raise (UnknownTargetError (unknown_target_message t bad)), σ).
Proof.
  intros Hdf Hgood Hbad.
  rewrite (transform_single_column _ _ _ _ _ Hdf).
  rewrite (traverse_first_offender t good bad rest Hgood Hbad). reflexivity.
Qed.

Lemma transform_first_offender_witness :
  let σ : store := {[ 2%positive := [("hit", [PInt 1; PStr "maybe"; PStr "never"])] ]} in
  transform (default "hit") 2%positive σ
  = Some (Raise (UnknownTargetError
                   "The entered target 'maybe' is not in the target set of {1, 0}"), σ).
Proof.
  intros σ.
  apply (transform_first_offender (default "hit") 2%positive σ "hit"
           [PInt 1] (PStr "maybe") [PStr "never"]).
  - apply lookup_singleton_eq.
  - constructor; [left; reflexivity|constructor].
  - intros [H|H]; discriminate.
Defined.

(** What a successful call did. *)
Lemma transform_Return (t : BinaryTarget) (data r : ref) (σ σ' : store) :
  transform t data σ = Some (Return r, σ') ->
  exists label cells codes,
    σ !! data = Some [(label, cells)] /\
    traverse (transform_to_binary t) cells = Return codes /\
    r = data /\ σ' = <[data := [(label, PInt <$> codes)]]> σ.
Proof.
  intros H. destruct (σ !! data) as [df|] eqn:Hdf;
    [|unfold transform in H; rewrite Hdf in H; discriminate].
  destruct df as [|[label cells] [|c2 df']].
  - unfold transform in H. rewrite Hdf in H. simpl in H. discriminate.
  - rewrite (transform_single_column _ _ _ _ _ Hdf) in H.
    destruct (traverse (transform_to_binary t) cells) as [codes|e] eqn:Hcodes;
      [|discriminate].
    injection H as <- <-. exists label, cells, codes. auto.
  - unfold transform in H. rewrite Hdf in H. simpl in H. discriminate.
Qed.

Lemma traverse_fixed_codes (t : BinaryTarget) (codes : list Z) :
  transform_to_binary t (PInt 1) = Return 1 ->
  transform_to_binary t (PInt 0) = Return 0 ->
  Forall (fun c => c = 1 \/ c = 0) codes ->
  traverse (transform_to_binary t) (PInt <$> codes) = Return codes.
Proof.
  intros H1 H0. induction 1 as [|c codes Hc _ IH]; [reflexivity|].
  change (bind (transform_to_binary t (PInt c))
            (fun y => bind (traverse (transform_to_binary t) (PInt <$> codes))
                           (fun ys => Return (y :: ys)))
          = Return (c :: codes)).
  rewrite IH. destruct Hc as [-> | ->]; [rewrite H1|rewrite H0]; reflexivity.
Qed.

(** X3: for a target that encodes 1 as 1 and 0 as 0, as the default one
    does, [transform] is idempotent: after a successful call a second
    call on the same frame succeeds, returns the same reference and
    leaves the store as it is. *)
Theorem transform_idempotent (t : BinaryTarget) (data r : ref) (σ σ' : store) :
  transform_to_binary t (PInt 1) = Return 1 ->
  transform_to_binary t (PInt 0) = Return 0 ->
  transform t data σ = Some (Return r, σ') ->
  transform t r σ' = Some (Return r, σ').
Proof.
  intros H1 H0 Hfirst.
  apply transform_Return in Hfirst as (label & cells & codes & Hdf & Hcodes & -> & ->).
  assert (Hdf' : <[data := [(label, PInt <$> codes)]]> σ !! data
                 = Some [(label, PInt <$> codes)]) by apply lookup_insert_eq.
  rewrite (transform_single_column _ _ _ _ _ Hdf').
  rewrite (traverse_fixed_codes t codes H1 H0)
    by (eapply traverse_codes; eassumption).
  rewrite insert_insert_eq. reflexivity.
Qed.

Lemma transform_idempotent_witness :
  let σ : store := {[ 5%positive := [("hit", [PBool true; PInt 0])] ]} in
  let σ' : store := <[5%positive := [("hit", [PInt 1; PInt 0])]]> σ in
  transform (default "hit") 5%positive σ = Some (Return 5%positive, σ') /\
  transform (default "hit") 5%positive σ' = Some (Return 5%positive, σ').
Proof.
  intros σ σ'.
  assert (Hfirst : transform (default "hit") 5%positive σ = Some (Return 5%positive, σ')).
  { rewrite (transform_single_column _ _ _ "hit" [PBool true; PInt 0]);
      [reflexivity|apply lookup_singleton_eq]. }
  split; [exact Hfirst|].
  apply (transform_idempotent (default "hit") 5%positive 5%positive σ σ');
    [reflexivity|reflexivity|exact Hfirst].
Defined.

(** X4: for a target whose domain holds neither 1 nor 0, [transform]
    cannot be applied twice.  After a successful call on a frame with at
    least one row the column holds codes, so a second call on that frame
    raises [UnknownTargetError] and leaves the codes in place. *)
Theorem transform_twice_fails (t : BinaryTarget) (data r : ref) (σ σ' : store)
    (label : string) (cell : object) (cells : Series) :
  ~ in_domain t (PInt 1) ->
  ~ in_domain t (PInt 0) ->
  σ !! data = Some [(label, cell :: cells)] ->
  transform t data σ = Some (Return r, σ') ->
  exists m, transform t r σ' = Some (Raise (UnknownTargetError m), σ').
Proof.
  intros H1 H0 Hdf Hfirst.
  apply transform_Return in Hfirst as (label' & cells' & codes & Hdf' & Hcodes & -> & ->).
  rewrite Hdf in Hdf'. injection Hdf' as <- <-.
  destruct (traverse_codes t _ _ Hcodes) as [Hlen Hall].
  destruct codes as [|c codes]; [discriminate|].
  assert (Hnew : <[data := [(label, PInt <$> c :: codes)]]> σ !! data
                 = Some [(label, [] ++ PInt c :: (PInt <$> codes))])
    by apply lookup_insert_eq.
  eexists. apply (transform_first_offender t data _ label [] (PInt c) _ Hnew);
    [constructor|].
  inversion Hall as [|? ? [->| ->] _]; assumption.
Qed.

Lemma transform_twice_fails_witness :
  let t := {| name := "hit"; positive_value := PStr "yes"; negative_value := PStr "no" |} in
  let σ : store := {[ 4%positive := [("hit", [PStr "no"; PStr "yes"])] ]} in
  let σ' : store := <[4%positive := [("hit", [PInt 0; PInt 1])]]> σ in
  transform t 4%positive σ = Some (Return 4%positive, σ') /\
  exists m, transform t 4%positive σ' = Some (Raise (UnknownTargetError m), σ').
Proof.
  intros t σ σ'.
  assert (Hdf : σ !! 4%positive = Some [("hit", [PStr "no"; PStr "yes"])])
    by apply lookup_singleton_eq.
  assert (Hfirst : transform t 4%positive σ = Some (Return 4%positive, σ')).
  { rewrite (transform_single_column _ _ _ _ _ Hdf). reflexivity. }
  split; [exact Hfirst|].
  apply (transform_twice_fails t 4%positive 4%positive σ σ' "hit"
           (PStr "no") [PStr "yes"]); try assumption.
  - intros [H|H]; discriminate.
  - intros [H|H]; discriminate.
Defined.

End BinaryMore.

(* ===================================================================== *)
(** ** More on the script's validator *)
(* ===================================================================== *)

Section ValidatorMore.
Import Py Search.

(** X6: for a solvent that is neither ["water"] nor ["C3"],
    [custom_function] returns [True] without reading anything else: the
    row may lack a temperature or a concentration, or hold anything in
    their place. *)
Theorem custom_function_other_solvent (ser : Series) (v : value) :
  ser !! "Solvent" = Some v ->
  eq_str v "water" = false ->
  eq_str v "C3" = false ->
  custom_function ser = Return true.
Proof.
  intros Hs Hw Hc. unfold custom_function, custom_function_C3, getattr.
  rewrite Hs. simpl. rewrite Hw, Hc. reflexivity.
Qed.

Lemma custom_function_other_solvent_witness :
  custom_function {[ "Solvent" := VStr "C1" ]} = Return true /\
  custom_function {[ "Solvent" := VNum (Z2Qc 7); "Temperature" := VStr "hot" ]}
  = Return true.
Proof.
  split.
  - apply (custom_function_other_solvent _ (VStr "C1")); reflexivity.
  - apply (custom_function_other_solvent _ (VNum (Z2Qc 7))); reflexivity.
Defined.

(** X7: the concentration is read only when the temperature test
    succeeds.  With water at a temperature of at most 120, and with C3
    at a temperature of at least 150, [custom_function] returns [True]
    whatever the row holds as concentration, if anything. *)
Theorem custom_function_concentration_unread (ser : Series) (t : Qc) :
  ser !! "Temperature" = Some (VNum t) ->
  (ser !! "Solvent" = Some (VStr "water") -> (t <= Z2Qc 120)%Qc ->
     custom_function ser = Return true) /\
  (ser !! "Solvent" = Some (VStr "C3") -> (Z2Qc 150 <= t)%Qc ->
     custom_function ser = Return true).
Proof.
  intros Ht. split; intros Hs Hle;
    unfold custom_function, custom_function_C3, getattr, and_then;
    rewrite Hs, Ht; simpl.
  - rewrite !bool_decide_eq_false_2; [reflexivity| |].
    + apply Qcle_not_lt. eapply Qcle_trans; [exact Hle|]. decide_by_computation.
    + apply Qcle_not_lt, Hle.
  - rewrite bool_decide_eq_false_2; [reflexivity|]. apply Qcle_not_lt, Hle.
Qed.

Lemma custom_function_concentration_unread_witness :
  custom_function {[ "Solvent" := VStr "water"; "Temperature" := VNum (Z2Qc 100) ]}
  = Return true.
Proof.
  destruct (custom_function_concentration_unread
              {[ "Solvent" := VStr "water"; "Temperature" := VNum (Z2Qc 100) ]}
              (Z2Qc 100)) as [H _]; [reflexivity|].
  apply H; [reflexivity|]. decide_by_computation.
Defined.

(** X8: what [custom_function] raises.  A row without a solvent raises
    [AttributeError] for [Solvent].  With water or C3, a missing
    temperature raises [AttributeError] for [Temperature] and a
    temperature that is a string raises [TypeError]; with water above
    120 a missing concentration raises [AttributeError] for
    [Concentration] and one that is a string raises [TypeError]. *)
Theorem custom_function_raises (ser : Series) :
  (ser !! "Solvent" = None -> custom_function ser = Raise (AttributeError "Solvent")) /\
  (forall s, ser !! "Solvent" = Some (VStr s) -> s = "water" \/ s = "C3" ->
     (ser !! "Temperature" = None ->
        custom_function ser = Raise (AttributeError "Temperature")) /\
     (forall x, ser !! "Temperature" = Some (VStr x) ->
        custom_function ser = Raise TypeError)) /\
  (forall t, ser !! "Solvent" = Some (VStr "water") ->
     ser !! "Temperature" = Some (VNum t) -> (Z2Qc 120 < t)%Qc ->
     (ser !! "Concentration" = None ->
        custom_function ser = Raise (AttributeError "Concentration")) /\
     (forall x, ser !! "Concentration" = Some (VStr x) ->
        custom_function ser = Raise TypeError)).
Proof.
  split; [|split].
  - intros Hs. unfold custom_function, getattr. rewrite Hs. reflexivity.
  - intros s Hs [-> | ->]; (split; [intros Ht|intros x Ht]);
      unfold custom_function, custom_function_C3, getattr, and_then;
      rewrite Hs, Ht; reflexivity.
  - intros t Hs Ht Hgt. (split; [intros Hc|intros x Hc]);
      unfold custom_function, custom_function_C3, getattr, and_then;
      rewrite Hs, Ht, Hc; simpl; rewrite bool_decide_eq_true_2 by assumption;
      reflexivity.
Qed.

Lemma custom_function_raises_witness :
  custom_function ∅ = Raise (AttributeError "Solvent") /\
  custom_function {[ "Solvent" := VStr "C3" ]} = Raise (AttributeError "Temperature") /\
  custom_function {[ "Solvent" := VStr "water"; "Temperature" := VNum (Z2Qc 130) ]}
  = Raise (AttributeError "Concentration").
Proof.
  split; [|split].
  - apply custom_function_raises. reflexivity.
  - destruct (custom_function_raises {[ "Solvent" := VStr "C3" ]}) as (_ & H & _).
    apply (H "C3"); [reflexivity|right; reflexivity|reflexivity].
  - destruct (custom_function_raises
                {[ "Solvent" := VStr "water"; "Temperature" := VNum (Z2Qc 130) ]})
      as (_ & _ & H).
    apply (H (Z2Qc 130)); [reflexivity|reflexivity|decide_by_computation|reflexivity].
Defined.

(** Order facts on rationals, used to compare thresholds. *)
Ltac order_qc :=
  repeat match goal with
         | H : ~ (_ < _)%Qc |- _ => apply Qcnot_lt_le in H
         end;
  try assumption;
  try (exfalso;
       match goal with
       | H : (?a < ?b)%Qc, H1 : (?b <= ?c)%Qc, H2 : (?c <= ?a)%Qc |- _ =>
           exact (Qclt_not_le _ _ (Qclt_le_trans _ _ _ H H1) H2)
       end).

Lemma forbidden_concentration (s : string) (t c c' : Qc) :
  (c' <= c)%Qc -> forbidden s t c = false -> forbidden s t c' = false.
Proof.
  intros Hle. unfold forbidden.
  destruct (String.eqb s "water"), (String.eqb s "C3"),
    (bool_decide (Z2Qc 120 < t)%Qc), (bool_decide (Z2Qc 180 < t)%Qc),
    (bool_decide (t < Z2Qc 150)%Qc); simpl;
    destruct (bool_decide_reflect (Z2Qc 5 < c)%Qc),
      (bool_decide_reflect (Z2Qc 3 < c)%Qc),
      (bool_decide_reflect (Z2Qc 5 < c')%Qc),
      (bool_decide_reflect (Z2Qc 3 < c')%Qc);
    simpl; try reflexivity; try discriminate; intros _; order_qc.
Qed.

(** X9: acceptance only improves as the concentration goes down.  If
    [custom_function] accepts a row, it accepts the row with any lower
    concentration in its place; and it accepts every row whose
    concentration is at most 3. *)
Theorem custom_function_concentration (ser : Series) (s : string) (t c : Qc) :
  ser !! "Solvent" = Some (VStr s) ->
  ser !! "Temperature" = Some (VNum t) ->
  ser !! "Concentration" = Some (VNum c) ->
  (forall c', (c' <= c)%Qc -> custom_function ser = Return true ->
     custom_function (<["Concentration" := VNum c']> ser) = Return true) /\
  ((c <= Z2Qc 3)%Qc -> custom_function ser = Return true).
Proof.
  intros Hs Ht Hc. split.
  - intros c' Hle. rewrite (custom_function_spec ser s t c Hs Ht Hc).
    rewrite (custom_function_spec (<["Concentration" := VNum c']> ser) s t c');
      [| rewrite lookup_insert_ne by discriminate; assumption
       | rewrite lookup_insert_ne by discriminate; assumption
       | apply lookup_insert_eq].
    intros [= H]. apply negb_true_iff in H.
    rewrite (forbidden_concentration s t c c' Hle H). reflexivity.
  - intros Hle. rewrite (custom_function_spec ser s t c Hs Ht Hc).
    unfold forbidden.
    assert (H5 : bool_decide (Z2Qc 5 < c)%Qc = false).
    { apply bool_decide_eq_false_2, Qcle_not_lt.
      eapply Qcle_trans; [exact Hle|]. decide_by_computation. }
    assert (H3 : bool_decide (Z2Qc 3 < c)%Qc = false)
      by (apply bool_decide_eq_false_2, Qcle_not_lt, Hle).
    rewrite H5, H3, !andb_false_r. reflexivity.
Qed.

Lemma custom_function_concentration_witness :
  let ser : Series := {[ "Solvent" := VStr "water"; "Temperature" := VNum (Z2Qc 200);
                         "Concentration" := VNum (Z2Qc 2) ]} in
  custom_function ser = Return true /\
  custom_function (<["Concentration" := VNum (Z2Qc 1)]> ser) = Return true.
Proof.
  intros ser.
  destruct (custom_function_concentration ser "water" (Z2Qc 200) (Z2Qc 2))
    as [Hdown Hlow]; [reflexivity..|].
  assert (Hacc : custom_function ser = Return true)
    by (apply Hlow; decide_by_computation).
  split; [exact Hacc|]. apply Hdown; [decide_by_computation|exact Hacc].
Defined.

Lemma forbidden_water_temperature (t t' c : Qc) :
  (t' <= t)%Qc -> forbidden "water" t c = false -> forbidden "water" t' c = false.
Proof.
  intros Hle. unfold forbidden. simpl.
  destruct (bool_decide (Z2Qc 5 < c)%Qc), (bool_decide (Z2Qc 3 < c)%Qc);
    destruct (bool_decide_reflect (Z2Qc 120 < t)%Qc),
      (bool_decide_reflect (Z2Qc 180 < t)%Qc),
      (bool_decide_reflect (Z2Qc 120 < t')%Qc),
      (bool_decide_reflect (Z2Qc 180 < t')%Qc);
    simpl; try reflexivity; try discriminate; intros _; order_qc.
Qed.

Lemma forbidden_C3_temperature (t t' c : Qc) :
  (t <= t')%Qc -> forbidden "C3" t c = false -> forbidden "C3" t' c = false.
Proof.
  intros Hle. unfold forbidden. simpl.
  destruct (bool_decide (Z2Qc 3 < c)%Qc);
    destruct (bool_decide_reflect (t < Z2Qc 150)%Qc),
      (bool_decide_reflect (t' < Z2Qc 150)%Qc);
    simpl; try reflexivity; try discriminate; intros _.
  exfalso. match goal with
           | H : (t' < _)%Qc, H' : ~ (t < _)%Qc |- _ =>
               apply H'; eapply Qcle_lt_trans; [exact Hle|exact H]
           end.
Qed.

(** X10: the two solvents react to temperature in opposite ways.  An
    accepted water row stays accepted at any lower temperature, and an
    accepted C3 row stays accepted at any higher temperature. *)
Theorem custom_function_temperature (ser : Series) (t t' c : Qc) :
  ser !! "Temperature" = Some (VNum t) ->
  ser !! "Concentration" = Some (VNum c) ->
  custom_function ser = Return true ->
  (ser !! "Solvent" = Some (VStr "water") -> (t' <= t)%Qc ->
     custom_function (<["Temperature" := VNum t']> ser) = Return true) /\
  (ser !! "Solvent" = Some (VStr "C3") -> (t <= t')%Qc ->
     custom_function (<["Temperature" := VNum t']> ser) = Return true).
Proof.
  intros Ht Hc Hacc. split; intros Hs Hle;
    rewrite (custom_function_spec ser _ t c Hs Ht Hc) in Hacc;
    injection Hacc as Hacc; apply negb_true_iff in Hacc.
  - rewrite (custom_function_spec (<["Temperature" := VNum t']> ser) "water" t' c);
      [| rewrite lookup_insert_ne by discriminate; assumption
       | apply lookup_insert_eq
       | rewrite lookup_insert_ne by discriminate; assumption].
    rewrite (forbidden_water_temperature t t' c Hle Hacc). reflexivity.
  - rewrite (custom_function_spec (<["Temperature" := VNum t']> ser) "C3" t' c);
      [| rewrite lookup_insert_ne by discriminate; assumption
       | apply lookup_insert_eq
       | rewrite lookup_insert_ne by discriminate; assumption].
    rewrite (forbidden_C3_temperature t t' c Hle Hacc). reflexivity.
Qed.

Lemma custom_function_temperature_witness :
  let ser : Series := {[ "Solvent" := VStr "C3"; "Temperature" := VNum (Z2Qc 160);
                         "Concentration" := VNum (Z2Qc 10) ]} in
  custom_function (<["Temperature" := VNum (Z2Qc 200)]> ser) = Return true.
Proof.
  intros ser.
  destruct (custom_function_temperature ser (Z2Qc 160) (Z2Qc 200) (Z2Qc 10))
    as [_ H]; [reflexivity|reflexivity|vm_compute; reflexivity|].
  apply H; [reflexivity|decide_by_computation].
Defined.

Lemma script_full_row_lookup (v1 v2 v3 v4 : value) :
  let ser := row_series script_names [v1; v2; v3; v4] in
  ser !! "Solvent" = Some v1 /\ ser !! "Temperature" = Some v3 /\
  ser !! "Concentration" = Some v4.
Proof. repeat split; vm_compute; reflexivity. Qed.

Lemma custom_function_typed_row (r : string * string * Qc * Qc) :
  custom_function (row_series script_names (typed_row r))
  = Return (negb (combination (Z2Qc 5) (fun t => bool_decide (Z2Qc 120 < t)%Qc) "water" r
                  || combination (Z2Qc 3) (fun t => bool_decide (Z2Qc 180 < t)%Qc) "water" r
                  || combination (Z2Qc 3) (fun t => bool_decide (t < Z2Qc 150)%Qc) "C3" r)).
Proof.
  destruct r as [[[s sp] t] c]. simpl typed_row.
  destruct (script_full_row_lookup (VStr s) (VStr sp) (VNum t) (VNum c)) as (Ls & Lt & Lc).
  rewrite (custom_function_spec _ s t c Ls Lt Lc). unfold forbidden, combination.
  destruct (String.eqb s "water"), (String.eqb s "C3"),
    (bool_decide (Z2Qc 120 < t)%Qc), (bool_decide (Z2Qc 180 < t)%Qc),
    (bool_decide (t < Z2Qc 150)%Qc), (bool_decide (Z2Qc 5 < c)%Qc),
    (bool_decide (Z2Qc 3 < c)%Qc); reflexivity.
Qed.

Lemma and_sum_cons (a b c : bool) (m1 m2 m3 : list bool) :
  and_sum (a :: m1) (b :: m2) (c :: m3)
  = ((if a && b && c then 1 else 0) + and_sum m1 m2 m3)%nat.
Proof.
  unfold and_sum.
  change (zip_with andb (zip_with andb (a :: m1) (b :: m2)) (c :: m3))
    with ((a && b && c) :: zip_with andb (zip_with andb m1 m2) m3).
  rewrite filter_cons. destruct (a && b && c); reflexivity.
Qed.

(** Each printed number is the number of rows matching its mask. *)
Lemma count_entries_exact (conc_gt : Qc) (temp : value -> result bool)
    (tempb : Qc -> bool) (solvent_name : string) (sub : Subspace)
    (tuples : list (string * string * Qc * Qc)) :
  param_name <$> parameters sub = script_names ->
  (forall t, temp (VNum t) = Return (tempb t)) ->
  exp_rep sub = typed_row <$> tuples ->
  count_entries conc_gt temp solvent_name sub
  = Return (length (filter (fun r => combination conc_gt tempb solvent_name r = true)
                           tuples)).
Proof.
  intros Hnames Htemp Hrows. unfold count_entries, getitem. rewrite Hnames, Hrows.
  change (index_of "Concentration" script_names) with (Some 3%nat).
  change (index_of "Temperature" script_names) with (Some 2%nat).
  change (index_of "Solvent" script_names) with (Some 0%nat).
  assert (Hcols : exists conc m1 temps m2 solvents,
    column 3 (typed_row <$> tuples) = Return conc /\
    apply (fun x => gt_num x conc_gt) conc = Return m1 /\
    column 2 (typed_row <$> tuples) = Return temps /\
    apply temp temps = Return m2 /\
    column 0 (typed_row <$> tuples) = Return solvents /\
    and_sum m1 m2 ((fun x => eq_str x solvent_name) <$> solvents)
    = length (filter (fun r => combination conc_gt tempb solvent_name r = true) tuples)).
  { clear Hrows. unfold column, apply.
    induction tuples as [|[[[s sp] t] c] tuples
                          (conc & m1 & temps & m2 & solvents & H1 & H2 & H3 & H4 & H5 & H6)].
    - exists [], [], [], [], []. repeat split; reflexivity.
    - exists (VNum c :: conc), (bool_decide (conc_gt < c)%Qc :: m1),
             (VNum t :: temps), (tempb t :: m2), (VStr s :: solvents).
      rewrite fmap_cons. simpl traverse. simpl typed_row. simpl lookup.
      rewrite H1, H3, H5. simpl. rewrite H2, H4, Htemp. simpl.
      repeat split; try reflexivity.
      rewrite and_sum_cons.
      change (list_fmap value bool (fun x => eq_str x solvent_name) solvents)
        with ((fun x => eq_str x solvent_name) <$> solvents).
      rewrite H6, filter_cons. simpl combination.
      destruct (bool_decide (conc_gt < c)%Qc && tempb t && String.eqb s solvent_name);
        reflexivity. }
  destruct Hcols as (conc & m1 & temps & m2 & solvents & -> & H2 & -> & H4 & -> & H6).
  simpl. rewrite H2. simpl. rewrite H4. simpl. rewrite H6. reflexivity.
Qed.

Lemma filter_length_zero {A} (P : A -> Prop) `{forall x, Decision (P x)} (l : list A) :
  length (filter P l) = 0%nat <-> Forall (fun x => ~ P x) l.
Proof.
  induction l as [|x l IH]; [split; [constructor|reflexivity]|].
  rewrite filter_cons. destruct (decide (P x)) as [Hx|Hx]; simpl.
  - split; [discriminate|]. intros H'; inversion H'; contradiction.
  - rewrite IH. split; [constructor; assumption|]. intros H'; inversion H'; assumption.
Qed.

(** X11: what the loop prints.  On any table with the script's four
    columns, each printed number is the number of rows matching its mask
    (for the third one: C3, temperature below 150, concentration above
    3), and the three numbers are all 0 exactly when [custom_function]
    accepts every row of the table. *)
Theorem printed_counts (sub : Subspace) (tuples : list (string * string * Qc * Qc)) :
  param_name <$> parameters sub = script_names ->
  exp_rep sub = typed_row <$> tuples ->
  let water_120_5 := combination (Z2Qc 5) (fun t => bool_decide (Z2Qc 120 < t)%Qc) "water" in
  let water_180_3 := combination (Z2Qc 3) (fun t => bool_decide (Z2Qc 180 < t)%Qc) "water" in
  let C3_150_3 := combination (Z2Qc 3) (fun t => bool_decide (t < Z2Qc 150)%Qc) "C3" in
  count_water_120_5 sub = Return (length (filter (fun r => water_120_5 r = true) tuples)) /\
  count_water_180_3 sub = Return (length (filter (fun r => water_180_3 r = true) tuples)) /\
  count_C3_150_3 sub = Return (length (filter (fun r => C3_150_3 r = true) tuples)) /\
  ((count_water_120_5 sub = Return 0%nat /\ count_water_180_3 sub = Return 0%nat /\
    count_C3_150_3 sub = Return 0%nat) <->
   Forall (fun row => custom_function (row_series script_names row) = Return true)
          (exp_rep sub)).
Proof.
  intros Hnames Hrows water_120_5 water_180_3 C3_150_3.
  assert (H1 : count_water_120_5 sub
               = Return (length (filter (fun r => water_120_5 r = true) tuples)))
    by (apply count_entries_exact; auto).
  assert (H2 : count_water_180_3 sub
               = Return (length (filter (fun r => water_180_3 r = true) tuples)))
    by (apply count_entries_exact; auto).
  assert (H3 : count_C3_150_3 sub
               = Return (length (filter (fun r => C3_150_3 r = true) tuples)))
    by (apply count_entries_exact; auto).
  split; [exact H1|]. split; [exact H2|]. split; [exact H3|].
  rewrite H1, H2, H3, Hrows, Forall_fmap. split.
  - intros (E1 & E2 & E3).
    injection E1 as E1. injection E2 as E2. injection E3 as E3.
    apply filter_length_zero in E1, E2, E3.
    rewrite Forall_forall in E1, E2, E3. apply Forall_forall. intros r Hr.
    simpl. rewrite custom_function_typed_row.
    fold water_120_5 water_180_3 C3_150_3.
    specialize (E1 r Hr). specialize (E2 r Hr). specialize (E3 r Hr).
    destruct (water_120_5 r), (water_180_3 r), (C3_150_3 r);
      try reflexivity; exfalso; auto.
  - intros Hall.
    assert (Hnone : Forall (fun r => water_120_5 r = false /\ water_180_3 r = false /\
                                     C3_150_3 r = false) tuples).
    { eapply Forall_impl; [exact Hall|]. simpl. intros r Hr.
      rewrite custom_function_typed_row in Hr.
      fold water_120_5 water_180_3 C3_150_3 in Hr. injection Hr as Hr.
      destruct (water_120_5 r), (water_180_3 r), (C3_150_3 r);
        try discriminate; auto. }
    repeat split; f_equal; apply filter_length_zero;
      (eapply Forall_impl; [exact Hnone|]); simpl; intros r (F1 & F2 & F3);
      congruence.
Qed.

(** A table of three rows, one of them water at 200 with concentration
    10: it is counted by the first two masks and not by the third. *)
Lemma printed_counts_witness :
  let tuples := [("water", "slow", Z2Qc 200, Z2Qc 10);
                 ("C3", "fast", Z2Qc 200, Z2Qc 10);
                 ("C1", "fast", Z2Qc 100, Z2Qc 1)] in
  let sub := {| parameters := script_parameters (fun _ => []); constraints := [];
                exp_rep := typed_row <$> tuples; comp_rep := [] |} in
  count_water_120_5 sub = Return 1%nat /\
  count_water_180_3 sub = Return 1%nat /\
  count_C3_150_3 sub = Return 0%nat.
Proof.
  intros tuples sub.
  destruct (printed_counts sub tuples eq_refl eq_refl) as (H1 & H2 & H3 & _).
  rewrite H1, H2, H3. repeat split; vm_compute; reflexivity.
Defined.

(** X17: [custom_function] reads the row by name and reads three names
    only.  Two rows that agree on what they hold under [Solvent],
    [Temperature] and [Concentration] get the same answer, result or
    exception alike: no other entry, such as [Speed], has any
    influence. *)
Theorem custom_function_reads_three_names (ser ser' : Series) :
  ser !! "Solvent" = ser' !! "Solvent" ->
  ser !! "Temperature" = ser' !! "Temperature" ->
  ser !! "Concentration" = ser' !! "Concentration" ->
  custom_function ser = custom_function ser'.
Proof.
  intros Hs Ht Hc. unfold custom_function, custom_function_C3, getattr.
  rewrite Hs, Ht, Hc. reflexivity.
Qed.

Lemma custom_function_reads_three_names_witness :
  custom_function {[ "Solvent" := VStr "water"; "Speed" := VStr "fast";
                     "Temperature" := VNum (Z2Qc 130);
                     "Concentration" := VNum (Z2Qc 10) ]}
  = custom_function {[ "Concentration" := VNum (Z2Qc 10);
                       "Temperature" := VNum (Z2Qc 130);
                       "Solvent" := VStr "water" ]} /\
  custom_function {[ "Solvent" := VStr "water"; "Speed" := VStr "fast" ]}
  = custom_function {[ "Solvent" := VStr "water"; "Speed" := VNum (Z2Qc 3) ]}.
Proof.
  split; apply custom_function_reads_three_names; reflexivity.
Defined.

End ValidatorMore.

(* ===================================================================== *)
(** ** More on the UUID converter hooks *)
(* ===================================================================== *)

Section UuidMore.
Import Py Uuid.
Local Open Scope Z_scope.

Lemma UUID_from_hex_str (u : UUID) :
  in_range (int u) -> UUID_from_hex (str u) = Return u.
Proof.
  intros Hrange. destruct (format_032x_spec (int u) Hrange) as (Hlen & Hhex & Hint).
  unfold str. rewrite (UUID_from_hex_hyphenate _ (int u) Hlen Hhex Hint Hrange).
  destruct u. reflexivity.
Qed.

(** X12: the unstructure hook is injective: two UUIDs that unstructure to
    the same string are equal, so distinct identifiers never collide in
    a serialized result. *)
Theorem unstructure_hook_injective (u v : UUID) :
  in_range (int u) -> in_range (int v) ->
  unstructure_hook u = unstructure_hook v -> u = v.
Proof.
  intros Hu Hv Heq. unfold unstructure_hook in Heq.
  pose proof (UUID_from_hex_str u Hu) as Ru.
  pose proof (UUID_from_hex_str v Hv) as Rv.
  rewrite Heq in Ru. congruence.
Qed.

Lemma unstructure_hook_injective_witness :
  unstructure_hook {| int := 7 |} <> unstructure_hook {| int := 8 |}.
Proof.
  intros Heq.
  apply (unstructure_hook_injective {| int := 7 |} {| int := 8 |}) in Heq;
    [discriminate|unfold in_range; simpl; lia|unfold in_range; simpl; lia].
Defined.

Lemma chars_length (s : string) : length (chars s) = String.length s.
Proof. unfold chars. induction s as [|c s IH]; simpl; [reflexivity|]. rewrite IH. reflexivity. Qed.

(** X13: the shape of an unstructured UUID: 36 characters, namely five
    groups of 8, 4, 4, 4 and 12 lowercase hexadecimal digits separated
    by hyphens. *)
Theorem unstructure_hook_shape (u : UUID) :
  in_range (int u) ->
  String.length (unstructure_hook u) = 36%nat /\
  exists a b c d e : list ascii,
    chars (unstructure_hook u)
    = a ++ "-"%char :: b ++ "-"%char :: c ++ "-"%char :: d ++ "-"%char :: e /\
    length a = 8%nat /\ length b = 4%nat /\ length c = 4%nat /\
    length d = 4%nat /\ length e = 12%nat /\
    Forall (fun x => x ∈ lower_hex) (a ++ b ++ c ++ d ++ e).
Proof.
  intros Hrange. destruct (format_032x_spec (int u) Hrange) as (Hlen & Hhex & _).
  unfold unstructure_hook, str, chars.
  set (hex := format_032x (int u)) in *.
  assert (Hparts : length (take 8 hex) = 8%nat /\ length (slice 8 12 hex) = 4%nat /\
                   length (slice 12 16 hex) = 4%nat /\ length (slice 16 20 hex) = 4%nat /\
                   length (drop 20 hex) = 12%nat).
  { unfold slice. rewrite !length_drop, !length_take, Hlen. repeat split; lia. }
  destruct Hparts as (La & Lb & Lc & Ld & Le). split.
  - rewrite <- chars_length. unfold chars.
    rewrite list_ascii_of_string_of_list_ascii. unfold hyphenate.
    repeat (rewrite length_app || rewrite length_cons). lia.
  - exists (take 8 hex), (slice 8 12 hex), (slice 12 16 hex), (slice 16 20 hex),
           (drop 20 hex).
    rewrite list_ascii_of_string_of_list_ascii, slices_join.
    repeat split; auto.
Qed.

Lemma unstructure_hook_shape_witness :
  String.length (unstructure_hook {| int := 255 |}) = 36%nat.
Proof.
  apply (unstructure_hook_shape {| int := 255 |}). unfold in_range. simpl. lia.
Defined.

Lemma chars_append (a b : string) : chars (a ++ b)%string = chars a ++ chars b.
Proof.
  unfold chars. induction a as [|x a IH]; simpl; [reflexivity|]. rewrite IH. reflexivity.
Qed.

(** The digits [UUID(...)] keeps of its argument. *)
Lemma UUID_from_hex_clean (s : string) (hex : list ascii) (n : Z) :
  filter (fun c => c <> "-"%char) (strip "{}" (remove "uuid:" (remove "urn:" (chars s))))
  = hex ->
  length hex = 32%nat -> int_16 hex = Return n -> in_range n ->
  UUID_from_hex s = Return {| int := n |}.
Proof.
  intros Hclean Hlen Hint [Hlo Hhi]. unfold UUID_from_hex. cbv zeta.
  rewrite Hclean, Hlen, Hint. simpl.
  destruct (Z.leb_spec 0 n); [|lia].
  destruct (Z.ltb_spec n (2 ^ 128)); [reflexivity|lia].
Qed.

Lemma lstrip_stop (set : list ascii) (c : ascii) (l : list ascii) :
  c ∉ set -> lstrip set (c :: l) = c :: l.
Proof. intros Hc. simpl. rewrite bool_decide_eq_false_2 by assumption. reflexivity. Qed.

Lemma hyphenate_facts (hex : list ascii) :
  Forall (fun c => c ∈ lower_hex) hex ->
  Forall (fun c => c <> "u"%char) (hyphenate hex) /\
  Forall (fun c => c ∉ chars "{}") (hyphenate hex) /\
  exists c rest, hyphenate hex = c :: rest.
Proof.
  intros Hhex.
  assert (Hplain : Forall plain (hyphenate hex)).
  { apply hyphenate_Forall; [|left].
    eapply Forall_impl; [exact Hhex|]. intros c Hc. right. exact Hc. }
  split; [|split].
  - eapply Forall_impl; [exact Hplain|]. intros c Hc. apply plain_facts, Hc.
  - eapply Forall_impl; [exact Hplain|]. intros c Hc. apply plain_facts, Hc.
  - unfold hyphenate. destruct (take 8 hex); simpl; eauto.
Qed.

(** X14: the structure hook also reads the braced and the URN spelling
    of a UUID and returns the same UUID for them.  Structuring followed
    by unstructuring therefore does not give such a string back but its
    canonical spelling. *)
Theorem structure_hook_spellings (u : UUID) :
  in_range (int u) ->
  let canonical := unstructure_hook u in
  structure_hook ("{" ++ canonical ++ "}") tt = Return u /\
  structure_hook ("urn:uuid:" ++ canonical) tt = Return u /\
  ("{" ++ canonical ++ "}")%string <> canonical /\
  ("urn:uuid:" ++ canonical)%string <> canonical.
Proof.
  intros Hrange canonical. subst canonical. destruct u as [n]. simpl in Hrange.
  destruct (format_032x_spec n Hrange) as (Hlen & Hhex & Hint).
  unfold structure_hook, unstructure_hook, str. simpl int.
  set (h := hyphenate (format_032x n)) in *.
  destruct (hyphenate_facts _ Hhex) as (Hu & Hbrace & c & rest & Hcons).
  fold h in Hu, Hbrace, Hcons.
  assert (Hfilter : filter (fun c => c <> "-"%char) h = format_032x n).
  { apply hyphenate_filter. eapply Forall_impl; [exact Hhex|].
    apply lower_hex_not_hyphen. }
  assert (Hlast : rev (rev h) = h) by apply rev_involutive.
  split; [|split; [|split]].
  - apply (UUID_from_hex_clean _ (format_032x n)); try assumption.
    rewrite !chars_append. unfold chars at 3. rewrite list_ascii_of_string_of_list_ascii.
    change (chars "{") with ["{"%char]. change (chars "}") with ["}"%char].
    assert (Hall : Forall (fun c => c <> "u"%char) (["{"%char] ++ h ++ ["}"%char])).
    { apply Forall_app. split; [repeat constructor; discriminate|].
      apply Forall_app. split; [exact Hu|repeat constructor; discriminate]. }
    unfold remove.
    change (chars "urn:") with ("u"%char :: chars "rn:").
    rewrite (remove_all_absent _ _ _ Hall).
    change (chars "uuid:") with ("u"%char :: chars "uid:").
    rewrite (remove_all_absent _ _ _ Hall).
    unfold strip. simpl app at 1.
    assert (Hl : lstrip (chars "{}") ("{"%char :: h ++ ["}"%char]) = h ++ ["}"%char]).
    { cbn [lstrip]. rewrite bool_decide_eq_true_2 by decide_by_computation.
      assert (Hc : c ∉ chars "{}") by (rewrite Hcons in Hbrace; inversion Hbrace; assumption).
      rewrite Hcons. apply (lstrip_stop _ c (rest ++ ["}"%char]) Hc). }
    rewrite Hl, rev_app_distr. simpl rev at 1. simpl app.
    rewrite lstrip_absent by (apply Forall_rev, Hbrace).
    rewrite Hlast. exact Hfilter.
  - apply (UUID_from_hex_clean _ (format_032x n)); try assumption.
    rewrite chars_append. unfold chars at 2. rewrite list_ascii_of_string_of_list_ascii.
    assert (Hurn : remove "urn:" (chars "urn:uuid:" ++ h) = chars "uuid:" ++ h).
    { unfold remove. simpl.
      change (remove_all (chars "urn:") 0 h) with (remove_all ("u"%char :: chars "rn:") 0 h).
      rewrite (remove_all_absent _ _ _ Hu). reflexivity. }
    assert (Huuid : remove "uuid:" (chars "uuid:" ++ h) = h).
    { unfold remove. simpl.
      change (remove_all (chars "uuid:") 0 h) with (remove_all ("u"%char :: chars "uid:") 0 h).
      apply (remove_all_absent _ _ _ Hu). }
    rewrite Hurn, Huuid, (strip_absent _ _ Hbrace). exact Hfilter.
  - intros Heq. apply (f_equal (fun x => length (chars x))) in Heq.
    rewrite !chars_append, !length_app in Heq. simpl in Heq. lia.
  - intros Heq. apply (f_equal (fun x => length (chars x))) in Heq.
    rewrite !chars_append, !length_app in Heq. simpl in Heq. lia.
Qed.

Lemma structure_hook_spellings_witness :
  let u := {| int := 0x12345678123456781234567812345678 |} in
  structure_hook ("{" ++ unstructure_hook u ++ "}") tt = Return u /\
  structure_hook ("urn:uuid:" ++ unstructure_hook u) tt = Return u.
Proof.
  intros u.
  destruct (structure_hook_spellings u) as (H1 & H2 & _);
    [unfold in_range; simpl; lia|].
  split; assumption.
Defined.

Lemma length_remove_all (old : list ascii) (s : list ascii) :
  forall skip, (length (remove_all old skip s) <= length s)%nat.
Proof.
  induction s as [|c s IH]; intros skip; [simpl; lia|].
  cbn [remove_all]. destruct skip as [|k].
  - destruct (starts_with old (c :: s)).
    + specialize (IH (length old - 1)%nat). simpl. lia.
    + specialize (IH 0%nat). simpl. lia.
  - specialize (IH k). simpl. lia.
Qed.

Lemma length_lstrip (set s : list ascii) : (length (lstrip set s) <= length s)%nat.
Proof.
  induction s as [|c s IH]; simpl; [lia|].
  destruct (bool_decide (c ∈ set)); simpl; lia.
Qed.

Lemma length_strip (set : string) (s : list ascii) :
  (length (strip set s) <= length s)%nat.
Proof.
  unfold strip. rewrite length_rev.
  etransitivity; [apply length_lstrip|]. rewrite length_rev. apply length_lstrip.
Qed.

(** X15: the structure hook refuses short input.  Every string of fewer
    than 32 characters, the empty string included, raises the
    [ValueError] for a badly formed UUID string. *)
Theorem structure_hook_short (s : string) :
  (String.length s < 32)%nat ->
  structure_hook s tt = Raise (ValueError "badly formed hexadecimal UUID string").
Proof.
  intros Hshort. unfold structure_hook, UUID_from_hex. cbv zeta.
  set (hex := filter (fun c => c <> "-"%char)
                (strip "{}" (remove "uuid:" (remove "urn:" (chars s))))).
  assert (Hlen : (length hex <= String.length s)%nat).
  { subst hex. etransitivity; [apply length_filter|].
    etransitivity; [apply length_strip|]. unfold remove.
    etransitivity; [apply length_remove_all|].
    etransitivity; [apply length_remove_all|].
    rewrite chars_length. reflexivity. }
  destruct (Nat.eqb_spec (length hex) 32); [lia|reflexivity].
Qed.

Lemma structure_hook_short_witness :
  structure_hook "" tt = Raise (ValueError "badly formed hexadecimal UUID string") /\
  structure_hook "12345678-1234-5678-1234" tt
  = Raise (ValueError "badly formed hexadecimal UUID string").
Proof.
  split; apply structure_hook_short; simpl; lia.
Defined.

Lemma hex_value_range (c : ascii) (d : Z) :
  hex_value c = Some d -> 0 <= d < 16.
Proof.
  unfold hex_value. cbv zeta.
  destruct (Z.leb_spec 48 (Z.of_nat (nat_of_ascii c)));
    destruct (Z.leb_spec (Z.of_nat (nat_of_ascii c)) 57); simpl;
    try (intros [= <-]; lia);
    destruct (Z.leb_spec 97 (Z.of_nat (nat_of_ascii c)));
    destruct (Z.leb_spec (Z.of_nat (nat_of_ascii c)) 102); simpl;
    try (intros [= <-]; lia);
    destruct (Z.leb_spec 65 (Z.of_nat (nat_of_ascii c)));
    destruct (Z.leb_spec (Z.of_nat (nat_of_ascii c)) 70); simpl;
    try (intros [= <-]; lia); discriminate.
Qed.

(** A numeral of [k] hexadecimal digits, read after an accumulator [a],
    has a value below [(a + 1) * 16 ^ k]. *)
Lemma int_16_step_digits (l : list ascii) :
  Forall (fun c => is_Some (hex_value c)) l ->
  forall a, 0 <= a ->
  exists n, foldl int_16_step (Some a) l = Some n /\
            0 <= n /\ n + 1 <= (a + 1) * 16 ^ Z.of_nat (length l).
Proof.
  induction 1 as [|c l [d Hd] _ IH]; intros a Ha.
  - exists a. simpl. split; [reflexivity|]. lia.
  - pose proof (hex_value_range c d Hd) as Hrange.
    destruct (IH (16 * a + d)) as (n & Hn & Hlo & Hhi); [lia|].
    exists n. split; [|split; [exact Hlo|]].
    + change (foldl int_16_step (Some a) (c :: l))
        with (foldl int_16_step (int_16_step (Some a) c) l).
      unfold int_16_step at 2. simpl. rewrite Hd. simpl. exact Hn.
    + change (length (c :: l)) with (S (length l)).
      rewrite Nat2Z.inj_succ, Z.pow_succ_r by lia.
      assert (Hpow : 0 < 16 ^ Z.of_nat (length l)) by (apply Z.pow_pos_nonneg; lia).
      nia.
Qed.

(** X16: every string that, without the URN prefix, the braces and the
    hyphens, is 32 hexadecimal digits of either case is accepted by the
    structure hook.  The UUID returned holds the value of these digits,
    which is in the 128-bit range, and the hooks are stable on it:
    unstructuring it and structuring the result returns the same UUID. *)
Theorem structure_hook_hex_digits (s : string) :
  length (cleaned s) = 32%nat ->
  Forall (fun c => is_Some (hex_value c)) (cleaned s) ->
  exists u, structure_hook s tt = Return u /\
            int_16 (cleaned s) = Return (int u) /\
            in_range (int u) /\
            structure_hook (unstructure_hook u) tt = Return u.
Proof.
  intros Hlen Hhex.
  destruct (int_16_step_digits (cleaned s) Hhex 0) as (n & Hn & Hlo & Hhi); [lia|].
  rewrite Hlen in Hhi.
  assert (Hrange : in_range n).
  { unfold in_range. change (2 ^ 128) with (16 ^ Z.of_nat 32). lia. }
  assert (Hint : int_16 (cleaned s) = Return n).
  { unfold int_16. destruct (cleaned s) as [|c l]; [discriminate|].
    rewrite Hn. reflexivity. }
  exists {| int := n |}. split; [|split; [exact Hint|split; [exact Hrange|]]].
  - apply (UUID_from_hex_clean s (cleaned s) n); auto.
  - apply UUID_from_hex_str, Hrange.
Qed.

Lemma structure_hook_hex_digits_witness :
  let u := {| int := 0xABCDEF78123456781234567812345678 |} in
  structure_hook "{ABCDEF78-1234-5678-1234-567812345678}" tt = Return u /\
  unstructure_hook u = "abcdef78-1234-5678-1234-567812345678" /\
  structure_hook (unstructure_hook u) tt = Return u.
Proof.
  intros u.
  assert (Hlen : length (cleaned "{ABCDEF78-1234-5678-1234-567812345678}") = 32%nat)
    by (vm_compute; reflexivity).
  assert (Hhex : Forall (fun c => is_Some (hex_value c))
                        (cleaned "{ABCDEF78-1234-5678-1234-567812345678}")).
  { apply Forall_forall. intros c Hc. vm_compute in Hc.
    repeat (apply elem_of_cons in Hc as [->|Hc];
            [eexists; vm_compute; reflexivity|]).
    apply elem_of_nil in Hc. contradiction. }
  destruct (structure_hook_hex_digits _ Hlen Hhex) as (v & Hs & Hint & _ & Hstable).
  assert (Hv : v = u).
  { destruct v as [n]. simpl in Hint. vm_compute in Hint.
    injection Hint as <-. reflexivity. }
  subst v. split; [exact Hs|]. split; [vm_compute; reflexivity|exact Hstable].
Defined.

End UuidMore.
